(** * calm-silence-cf07: signaling relay, peer transport, chunked transfer
      and share orchestration

    A shallow embedding of
    - [src/worker/SignalingRoom.ts] (the per-room relay object),
    - the [/ws/signaling/:roomId] route of the worker, its storage routes and
      its scheduled retention sweep,
    - [src/react-app/services/P2PService.ts] (the peer transport), and
    - the transfer and share handlers of the [App] component,
    followed by the properties proved about them.

    Conventions of the embedding.
    - Object identity (a [WebSocket], a [P2PService], a timer) is a number.
    - JavaScript numbers that count bytes or milliseconds are in [Z].
    - The [App] component is a function React calls at every render.  Its
      [useState] values are constants of one render, and every closure
      created during a render (a handler, a callback handed to a service, a
      timer callback) keeps the constants of that render: a handler below
      takes them as its [render] argument and reads state nowhere else.  A
      [set...] call writes the state the next render will bind; an updater
      function ([prev => ...]) is applied to that state.  A ref is one
      object for all renders: [ref.current] is read and written in place.
    - Timers are kept in a table of pending callbacks; [setTimeout] adds an
      entry, [clearTimeout] removes it, and a pending entry may fire.
    - A name without declaration throws a [ReferenceError] where it is
      evaluated; a handler that can throw returns [Ok] or [Throw].
    - Calls that leave the modelled code ([console], the peer library, the
      browser download, a socket [send]) are recorded in a trace. *)

From Stdlib Require Import ZArith QArith Qround String List Lia Floats Uint63.
From stdpp Require Import base option list gmap strings pretty.

Local Open Scope string_scope.
Local Open Scope list_scope.

(** ** Bytes *)

Abbreviation bytes := (list Byte.byte).

Definition byteLength (b : bytes) : Z := Z.of_nat (length b).

(** [ArrayBuffer.prototype.slice(begin, end)]: a negative index counts from
    the end, every index is clamped to the buffer, and an empty range gives
    an empty buffer. *)
Definition clamp_index (len i : Z) : Z :=
  if (i <? 0)%Z then Z.max (len + i) 0 else Z.min i len.

Definition ArrayBuffer_slice (buf : bytes) (begin_ end_ : Z) : bytes :=
  let len := byteLength buf in
  let first := clamp_index len begin_ in
  let final := clamp_index len end_ in
  take (Z.to_nat (Z.max (final - first) 0)) (drop (Z.to_nat first) buf).

(** [String.prototype.endsWith]: some suffix of [s] is [suffix]. *)
Fixpoint endsWith (s suffix : string) : bool :=
  String.eqb s suffix ||
  match s with
  | EmptyString => false
  | String _ s' => endsWith s' suffix
  end.

(** [s] ends with [suffix]. *)
Definition ends_with (s suffix : string) : Prop := exists front, s = front +:+ suffix.

(** [Array.prototype.includes] on an array of strings. *)
Definition includes (l : list string) (x : string) : bool :=
  existsb (String.eqb x) l.

(** A call that returns a value or throws an [Error] with a message. *)
Inductive Result (A : Type) :=
| Ok (a : A)
| Throw (error : string).
Arguments Ok {A} a.
Arguments Throw {A} error.

(** ** The signaling relay: [SignalingRoom] *)

Module SignalingRoom.

Inductive ReadyState := CONNECTING | OPEN | CLOSING | CLOSED.

Definition ReadyState_eqb (a b : ReadyState) : bool :=
  match a, b with
  | CONNECTING, CONNECTING | OPEN, OPEN | CLOSING, CLOSING | CLOSED, CLOSED => true
  | _, _ => false
  end.

(** What the runtime knows of a server-side socket when a message is
    fanned out: its [readyState], and whether [send] on it throws. *)
Record SocketStatus := {
  readyState : ReadyState;
  send_throws : bool;
}.

Definition Sockets := nat -> SocketStatus.

(** The fields of the object the handlers use.  [sessions] is the array of
    server-side sockets; [next_socket] numbers the sockets that
    [new WebSocketPair()] creates. *)
Record Room := {
  sessions : list nat;
  next_socket : nat;
}.

(** The constructor: [this.sessions = []]. *)
Definition new_Room : Room := {| sessions := []; next_socket := 0 |}.

(** A request: its [Upgrade] header and the segments of its URL's path. *)
Record Request := {
  header_Upgrade : option string;   (* request.headers.get('Upgrade') *)
  path : list string;
}.

Record Response := {
  status : Z;
  body : string;
  webSocket : option nat;           (* the server end paired with the client end returned *)
}.

Inductive Effect :=
| Send (session : nat) (messageData : string)   (* session.send(messageData) returned *)
| ConsoleError (session : nat)                  (* the catch branch *)
| ConsoleLog (text : string).

(** [!upgradeHeader || upgradeHeader !== 'websocket'] *)
Definition not_websocket_upgrade (request : Request) : bool :=
  match header_Upgrade request with
  | None => true
  | Some h => String.eqb h EmptyString || negb (String.eqb h "websocket")
  end.

(** [fetch]: the response, the room afterwards and the socket registered,
    if any. *)
Definition fetch (request : Request) (room : Room) : Response * Room :=
  if not_websocket_upgrade request then
    ({| status := 426; body := "Expected Upgrade: websocket"; webSocket := None |}, room)
  else
    let server := next_socket room in
    ({| status := 101; body := EmptyString; webSocket := Some server |},
     {| sessions := sessions room ++ [server]; next_socket := S server |}).

(** The body of the [forEach] in the ['message'] listener of [server]. *)
Definition deliver (env : Sockets) (server : nat) (messageData : string)
    (session : nat) : list Effect :=
  if negb (Nat.eqb session server) && ReadyState_eqb (readyState (env session)) OPEN then
    if send_throws (env session) then [ConsoleError session]
    else [Send session messageData]
  else [].

Fixpoint forEach (f : nat -> list Effect) (l : list nat) : list Effect :=
  match l with
  | [] => []
  | session :: rest => f session ++ forEach f rest
  end.

Definition on_message (env : Sockets) (server : nat) (messageData : string)
    (room : Room) : list Effect :=
  forEach (deliver env server messageData) (sessions room).

(** [closeOrErrorHandler] of [server]. *)
Definition closeOrErrorHandler (server : nat) (room : Room) : Room :=
  {| sessions := filter (fun session => session <> server) (sessions room);
     next_socket := next_socket room |}.

End SignalingRoom.

(** ** The worker route [/ws/signaling/:roomId] *)

Module Worker.
Import SignalingRoom.

(** The [SIGNALING_ROOM_DO] binding: one [SignalingRoom] per name, created
    by its constructor on first use.  [None] is a worker whose environment
    lacks the binding. *)
Record Env := {
  SIGNALING_ROOM_DO : option (gmap string Room);
}.

Definition room_of (ns : gmap string Room) (roomId : string) : Room :=
  default new_Room (ns !! roomId).

(** What the router of the application does with the path of a GET
    request, for the pattern [/ws/signaling/:roomId] (the router is the
    library's, not the repository's): the pattern matches a path of three
    segments, [ws], [signaling] and a third that is not empty, and
    [c.req.param('roomId')] is that third segment.  The paths [/ws/signaling]
    and [/ws/signaling/] do not match. *)
Definition param_roomId (request : Request) : option string :=
  match path request with
  | [first; second; roomId] =>
      if String.eqb first "ws" && String.eqb second "signaling"
         && negb (String.eqb roomId EmptyString)
      then Some roomId else None
  | _ => None
  end.

(** The handler of the route, given [roomId].  [stub_fetch_throws] stands
    for [await stub.fetch(c.req.raw)] rejecting before the object handles
    the request. *)
Definition signaling_handler (roomId : string) (request : Request) (stub_fetch_throws : bool)
    (env : Env) : Response * Env :=
  match roomId with
  | EmptyString =>
      ({| status := 400; body := "Missing roomId parameter"; webSocket := None |}, env)
  | _ =>
      match SIGNALING_ROOM_DO env with
      | None =>
          ({| status := 500; body := "Signaling service not configured."; webSocket := None |}, env)
      | Some ns =>
          if stub_fetch_throws then
            ({| status := 500; body := "Error connecting to signaling room."; webSocket := None |}, env)
          else
            let '(response, room') := fetch request (room_of ns roomId) in
            (response, {| SIGNALING_ROOM_DO := Some (<[roomId := room']> ns) |})
      end
  end.

(** The answer to a GET request whose path starts with [/ws/signaling]:
    the handler's when the pattern matches, and otherwise the
    application's [404 Not Found], no other route of the worker having such
    a path. *)
Definition signaling_route (request : Request) (stub_fetch_throws : bool)
    (env : Env) : Response * Env :=
  match param_roomId request with
  | Some roomId => signaling_handler roomId request stub_fetch_throws env
  | None => ({| status := 404; body := "404 Not Found"; webSocket := None |}, env)
  end.

(** The sessions registered in a room of the environment. *)
Definition sessions_of (env : Env) (roomId : string) : list nat :=
  match SIGNALING_ROOM_DO env with
  | None => []
  | Some ns => sessions (room_of ns roomId)
  end.

(** The path carries no room id: it is [/ws/signaling] or
    [/ws/signaling/]. *)
Definition room_absent (request : Request) : Prop :=
  path request = ["ws"; "signaling"] \/ path request = ["ws"; "signaling"; EmptyString].

(** The path is [/ws/signaling/roomId], for a room id that is not empty. *)
Definition names_room (request : Request) (roomId : string) : Prop :=
  path request = ["ws"; "signaling"; roomId] /\ roomId <> EmptyString.

End Worker.

(** ** The storage routes and the retention sweep of the worker *)

Module Api.

Inductive HttpMethod := PUT | GET.

(** What [createPresignedUrl] was asked for. *)
Record PresignedUrl := {
  url_key : string;
  url_method : HttpMethod;
  url_expires : Z;                      (* seconds *)
  url_contentType : option string;      (* httpMetadata.contentType *)
}.

(** The [uploadedAt] field of a parsed record: missing, falsy or not a
    string; a string [new Date] cannot read ([getTime()] is [NaN]); or a
    date string, given by the milliseconds it reads as. *)
Inductive UploadedAt :=
| NoUploadedAt
| InvalidDate (text_ : string)
| ValidDate (time : Z).

(** The fields of a parsed metadata object, of the types
    [FileMetadataForTTL] declares; [None] is a field that is missing. *)
Record Metadata := {
  filename : option string;
  uploadedAt : UploadedAt;
  contentType : option string;
  size : option Z;
  isCompressed : option bool;
}.

(** A value of the KV namespace: a string [JSON.parse] throws on (the empty
    string among them), or a string given by what it parses to; [Json None]
    parses to [null] or to something that is not an object. *)
Inductive KVValue :=
| NotJson (raw : string)
| Json (metadata : option Metadata).

(** The two bindings: the metadata records by key, and the bucket's object
    keys. *)
Record Store := {
  FILE_METADATA_KV : gmap string KVValue;
  YOUR_R2_BUCKET : gset string;
}.

Inductive Body :=
| Failure (message : string)
| UploadInitiated (url : PresignedUrl) (filename_ : string)
| Finalized (message : string)
| DownloadReady (url : PresignedUrl) (metadata : option Metadata)
| Deleted (message : string).

Record Response := {
  status : Z;
  body : Body;
}.

(** A string that is present and not empty, as [!x] tests it. *)
Definition truthy (x : option string) : option string :=
  match x with
  | Some (String c s) => Some (String c s)
  | _ => None
  end.

(** *** [POST /api/files/initiate-upload] *)

Record InitiateBody := {
  initiate_filename : option string;
  initiate_contentType : option string;
}.

(** [request] is [None] when [c.req.json()] throws. *)
Definition initiate_upload (request : option InitiateBody) (presign_throws : bool) : Response :=
  match request with
  | None => {| status := 500; body := Failure "Failed to initiate upload" |}
  | Some b =>
      match truthy (initiate_filename b) with
      | None => {| status := 400; body := Failure "Filename is required" |}
      | Some name =>
          match truthy (initiate_contentType b) with
          | None => {| status := 400; body := Failure "ContentType is required" |}
          | Some type_ =>
              if presign_throws
              then {| status := 500; body := Failure "Failed to initiate upload" |}
              else {| status := 200;
                      body := UploadInitiated
                                {| url_key := name; url_method := PUT; url_expires := 3600;
                                   url_contentType := Some type_ |} name |}
          end
      end
  end.

(** *** [POST /api/files/finalize-upload] *)

(** The fields are of the types the handler declares for the body, or
    missing. *)
Record FinalizeBody := {
  finalize_filename : option string;
  finalize_contentType : option string;
  finalize_size : option Z;              (* [None]: [typeof size !== 'number'] *)
  finalize_isCompressed : option bool;   (* [None]: [typeof isCompressed !== 'boolean'] *)
}.

(** [now] is the time [new Date()] reads. *)
Definition finalize_upload (now : Z) (request : option FinalizeBody) (put_throws : bool)
    (store : Store) : Response * Store :=
  match request with
  | None => ({| status := 500; body := Failure "Failed to save file metadata" |}, store)
  | Some b =>
      match truthy (finalize_filename b), truthy (finalize_contentType b),
            finalize_size b, finalize_isCompressed b with
      | Some name, Some type_, Some size_, Some compressed =>
          if put_throws
          then ({| status := 500; body := Failure "Failed to save file metadata" |}, store)
          else
            let metadata :=
              {| filename := Some name; uploadedAt := ValidDate now;
                 contentType := Some type_; size := Some size_;
                 isCompressed := Some compressed |} in
            ({| status := 201; body := Finalized "File metadata finalized successfully" |},
             {| FILE_METADATA_KV := <[name := Json (Some metadata)]> (FILE_METADATA_KV store);
                YOUR_R2_BUCKET := YOUR_R2_BUCKET store |})
      | _, _, _, _ =>
          ({| status := 400;
              body := Failure "Missing or invalid parameters: filename, contentType, size, and isCompressed are required." |},
           store)
      end
  end.

(** *** [GET /api/files/request-download/:filename] *)

(** The handler, given the value of [c.req.param('filename')] and whether
    [FILE_METADATA_KV.get] and [createPresignedUrl] throw. *)
Definition request_download (filename_ : string) (get_throws presign_throws : bool)
    (store : Store) : Response :=
  match filename_ with
  | EmptyString => {| status := 400; body := Failure "Filename parameter is required." |}
  | _ =>
      if get_throws
      then {| status := 500; body := Failure "Failed to request download URL" |}
      else
        match FILE_METADATA_KV store !! filename_ with
        | None => {| status := 404; body := Failure "File metadata not found" |}
        | Some (NotJson _) =>
            {| status := 500; body := Failure "Failed to parse file metadata." |}
        | Some (Json fileMetadataFromKV) =>
            if presign_throws
            then {| status := 500; body := Failure "Failed to request download URL" |}
            else {| status := 200;
                    body := DownloadReady
                              {| url_key := filename_; url_method := GET; url_expires := 3600;
                                 url_contentType := None |} fileMetadataFromKV |}
        end
  end.

(** *** [DELETE /api/files/:filename] *)

(** The handler, given the value of [c.req.param('filename')] and whether
    the two deletions throw. *)
Definition delete_file (filename_ : string) (r2_delete_throws kv_delete_throws : bool)
    (store : Store) : Response * Store :=
  match filename_ with
  | EmptyString => ({| status := 400; body := Failure "Filename is required" |}, store)
  | _ =>
      if r2_delete_throws
      then ({| status := 500; body := Failure ("Failed to delete file '" +:+ filename_ +:+ "'.") |},
            store)
      else
        let bucket := YOUR_R2_BUCKET store ∖ {[filename_]} in
        if kv_delete_throws
        then ({| status := 500; body := Failure ("Failed to delete file '" +:+ filename_ +:+ "'.") |},
              {| FILE_METADATA_KV := FILE_METADATA_KV store; YOUR_R2_BUCKET := bucket |})
        else ({| status := 200;
                 body := Deleted ("File '" +:+ filename_
                                  +:+ "' and its metadata marked for deletion.") |},
              {| FILE_METADATA_KV := delete filename_ (FILE_METADATA_KV store);
                 YOUR_R2_BUCKET := bucket |})
  end.

(** *** [scheduled]: the retention sweep *)

Definition TTL_PERIOD_DAYS : Z := 7.
Definition TTL_PERIOD_MS : Z := TTL_PERIOD_DAYS * 24 * 60 * 60 * 1000.

(** The counters the sweep reports when it ends. *)
Record Counts := {
  deletedCount : nat;
  errorCount : nat;
}.

Definition count_error (c : Counts) : Counts :=
  {| deletedCount := deletedCount c; errorCount := S (errorCount c) |}.

Definition count_deleted (c : Counts) : Counts :=
  {| deletedCount := S (deletedCount c); errorCount := errorCount c |}.

(** The object the sweep deletes along with the record under [key]:
    [metadata.filename || key.name]. *)
Definition fileToDelete (key : string) (metadata : Metadata) : string :=
  default key (truthy (filename metadata)).

(** A record past its retention at time [now]: it parses to an object whose
    [uploadedAt] is a date more than the retention period before [now]. *)
Definition expired (now : Z) (value : option KVValue) : option Metadata :=
  match value with
  | Some (Json (Some metadata)) =>
      match uploadedAt metadata with
      | ValidDate uploaded =>
          if (TTL_PERIOD_MS <? now - uploaded)%Z then Some metadata else None
      | _ => None
      end
  | _ => None
  end.

Section Scheduled.

(** [now] is what [Date.now()] reads.  The three calls of the loop that can
    throw, each caught by the inner [catch] and counted as an error:
    [FILE_METADATA_KV.get] of a key, [YOUR_R2_BUCKET.delete] of an object,
    [FILE_METADATA_KV.delete] of a key. *)
Variable now : Z.
Variables get_throws r2_delete_throws kv_delete_throws : string -> bool.

(** The body of the loop for one listed key. *)
Definition sweep_key (key : string) (state : Store * Counts) : Store * Counts :=
  let '(store, counts) := state in
  if get_throws key then (store, count_error counts)
  else
    match FILE_METADATA_KV store !! key with
    | None | Some (NotJson EmptyString) => (store, counts)           (* [!metadataString] *)
    | Some (NotJson _) => (store, count_error counts)
    | Some (Json None) => (store, count_error counts)
    | Some (Json (Some metadata)) =>
        match uploadedAt metadata with
        | NoUploadedAt => (store, count_error counts)
        | InvalidDate _ => (store, count_error counts)
        | ValidDate uploaded =>
            let ageMs := (now - uploaded)%Z in
            if (TTL_PERIOD_MS <? ageMs)%Z then
              let name := fileToDelete key metadata in
              if r2_delete_throws name then (store, count_error counts)
              else
                let bucket := YOUR_R2_BUCKET store ∖ {[name]} in
                if kv_delete_throws key
                then ({| FILE_METADATA_KV := FILE_METADATA_KV store;
                         YOUR_R2_BUCKET := bucket |},
                      count_error counts)
                else ({| FILE_METADATA_KV := delete key (FILE_METADATA_KV store);
                         YOUR_R2_BUCKET := bucket |},
                      count_deleted counts)
            else (store, counts)
        end
    end.

(** [scheduled]: [listed] is what [FILE_METADATA_KV.list()] resolves to, the
    keys of its first page, or the error it throws.  The result is the store
    afterwards and, unless the listing threw, the number of keys checked and
    the counters. *)
Definition scheduled (listed : Result (list string)) (store : Store)
    : Store * option (nat * Counts) :=
  match listed with
  | Throw _ => (store, None)
  | Ok keys =>
      let '(store', counts) :=
        fold_left (fun state key => sweep_key key state) keys
          (store, {| deletedCount := 0; errorCount := 0 |}) in
      (store', Some (length keys, counts))
  end.

(** The object the sweep deletes for the record under [key], if any: the
    record is read, is past its retention, and deleting the object does not
    throw. *)
Definition deletes_object (store : Store) (key : string) : option string :=
  if get_throws key then None
  else
    match expired now (FILE_METADATA_KV store !! key) with
    | Some metadata =>
        if r2_delete_throws (fileToDelete key metadata) then None
        else Some (fileToDelete key metadata)
    | None => None
    end.

(** Whether the sweep removes the record under [key]: its object is deleted
    and deleting the record does not throw. *)
Definition removes (store : Store) (key : string) : bool :=
  match deletes_object store key with
  | Some _ => negb (kv_delete_throws key)
  | None => false
  end.

(** Whether the sweep counts the record under [key] as an error: reading it
    throws, it does not parse, it has no readable date, or it is past its
    retention and one of the two deletions throws. *)
Definition counts_as_error (store : Store) (key : string) : bool :=
  get_throws key ||
  match FILE_METADATA_KV store !! key with
  | None | Some (NotJson EmptyString) => false
  | Some (NotJson _) | Some (Json None) => true
  | Some (Json (Some metadata)) =>
      match uploadedAt metadata with
      | ValidDate uploaded =>
          (TTL_PERIOD_MS <? now - uploaded)%Z &&
          (r2_delete_throws (fileToDelete key metadata) || kv_delete_throws key)
      | _ => true
      end
  end.

End Scheduled.

(** *** A store and a request to run the routes on *)

Definition never_throws (name : string) : bool := false.

Definition old_metadata : Metadata :=
  {| filename := Some "old.txt"; uploadedAt := ValidDate 0; contentType := Some "text/plain";
     size := Some 5%Z; isCompressed := Some false |}.

Definition example_store : Store :=
  {| FILE_METADATA_KV := {[ "old.txt" := Json (Some old_metadata); "bad" := NotJson "{" ]};
     YOUR_R2_BUCKET := {[ "old.txt" ]} |}.

Definition example_keys : list string := ["old.txt"; "bad"].

Definition example_upload : FinalizeBody :=
  {| finalize_filename := Some "a.txt"; finalize_contentType := Some "text/plain";
     finalize_size := Some 5%Z; finalize_isCompressed := Some true |}.

End Api.

(** ** The peer transport: [P2PService] *)

Module P2PService.

(** Calls on the two wrapped objects, and the console. *)
Inductive Effect :=
| PeerDestroy (peer : nat)
| PeerSend (peer : nat) (data : string)
| PeerSignal (peer : nat) (data : string)
| WsClose (ws : nat)
| ConsoleLog (text : string)
| ConsoleWarn (text : string).

(** [private peer: SimplePeerInstance | null], [private ws: WebSocket | null] *)
Record Fields := {
  peer : option nat;
  ws : option nat;
}.

(** A method: from the fields and the trace so far to a result. *)
Definition Method (A : Type) : Type := Fields * list Effect -> Result (A * (Fields * list Effect)).

Instance Method_ret : MRet Method := fun A a st => Ok (a, st).
Instance Method_bind : MBind Method := fun A B k m st =>
  match m st with
  | Ok (a, st') => k a st'
  | Throw e => Throw e
  end.

Definition emit (e : Effect) : Method unit := fun '(f, tr) => Ok (tt, (f, tr ++ [e])).
Definition get_peer : Method (option nat) := fun '(f, tr) => Ok (peer f, (f, tr)).
Definition get_ws : Method (option nat) := fun '(f, tr) => Ok (ws f, (f, tr)).
Definition set_peer (v : option nat) : Method unit :=
  fun '(f, tr) => Ok (tt, ({| peer := v; ws := ws f |}, tr)).
Definition set_ws (v : option nat) : Method unit :=
  fun '(f, tr) => Ok (tt, ({| peer := peer f; ws := v |}, tr)).

(** A method call on a reference that may be [null]: [null] throws. *)
Definition call (target : option nat) (method : nat -> Effect) : Method unit :=
  match target with
  | Some o => emit (method o)
  | None => fun _ => Throw "TypeError: Cannot read properties of null"
  end.

Definition when_set (target : option nat) (m : Method unit) : Method unit :=
  match target with Some _ => m | None => mret tt end.

(** [destroy()] *)
Definition destroy : Method unit :=
  emit (ConsoleLog "P2PService: Destroying...") ;;
  p ← get_peer ;
  when_set p (
    p' ← get_peer ;
    call p' PeerDestroy ;;
    set_peer None) ;;
  w ← get_ws ;
  when_set w (
    w' ← get_ws ;
    call w' WsClose ;;
    set_ws None).

(** [send(data)]; [connected] is [this.peer.connected]. *)
Definition send (connected : nat -> bool) (data : string) : Method unit :=
  p ← get_peer ;
  match p with
  | Some h =>
      if connected h then call p (fun o => PeerSend o data)
      else emit (ConsoleWarn "P2PService: Cannot send data, peer not connected.")
  | None => emit (ConsoleWarn "P2PService: Cannot send data, peer not connected.")
  end.

(** [signal(data)] *)
Definition signal (data : string) : Method unit :=
  p ← get_peer ;
  when_set p (call p (fun o => PeerSignal o data)).

(** Both references released, and the calls that release what [f] holds. *)
Definition released : Fields := {| peer := None; ws := None |}.

Definition release_calls (f : Fields) : list Effect :=
  match peer f with Some p => [PeerDestroy p] | None => [] end ++
  match ws f with Some w => [WsClose w] | None => [] end.

End P2PService.

(** ** The [App] component: chunked transfer and share orchestration *)

Module App.

(** *** Data *)

(** [interface FileMetadata] (a file kept in cloud storage) *)
Record FileMetadata := {
  filename : string;
  uploadedAt : string;
  contentType : string;
  md_size : Z;
  md_isCompressed : bool;
}.

(** A browser [File]: the parts the handlers read. *)
Record File := {
  file_name : string;
  file_type : string;
  file_arrayBuffer : bytes;
}.

(** [interface P2PFileMeta]: the payload of a [file-meta] frame. *)
Record P2PFileMeta := {
  meta_name : string;
  meta_size : Z;
  meta_type : string;
  meta_isCompressed : bool;
}.

Inductive P2PContext := manual | share_flow_receiver.

(** [File | FileMetadata]; [item instanceof File] is the first case. *)
Inductive ShareItem :=
| ItemFile (file : File)
| ItemPointer (metadata : FileMetadata).

Definition instanceof_File (item : option ShareItem) : bool :=
  match item with
  | Some (ItemFile _) => true
  | _ => false
  end.

(** [type UnifiedShareFlowStep], followed by the three literals that the
    handlers assign or compare although the union does not list them. *)
Inductive UnifiedShareFlowStep :=
| idle
| awaiting_room_id
| p2p_connect_attempt
| p2p_connected_for_action
| p2p_direct_transfer
| p2p_r2_pointer_send
| p2p_direct_transfer_failed_offer_r2
| r2_fallback_upload
| share_complete_success
| share_failed
| p2p_attempt
| p2p_r2_pointer_attempt
| p2p_r2_pointer_sent.

Inductive AppMessageType := info | success | error.

Record OverallAppMessage := {
  app_text : string;
  app_type : AppMessageType;
}.

Inductive Sender := me | peer | system.

(** [interface P2PLogMessage]; the [timestamp] field ([Date.now()]) is left
    out. *)
Record P2PLogMessage := {
  log_data : string;
  log_sender : Sender;
}.

Inductive Direction := send | receive.

(** The value of [manualP2PConnectionStatus]. *)
Inductive ConnectionStatus := disconnected | connecting | connected | failed.

(** The value of [p2pFileTransferProgress]. *)
Record TransferProgress := {
  tp_type : Direction;
  tp_filename : string;
  tp_progress : Z;
}.

(** The object a control frame parses to: its [type], and its [payload]
    when that is present and truthy. *)
Inductive Message :=
| file_meta (payload : option P2PFileMeta)
| file_end (payload : option string)           (* payload.name *)
| text (payload : string)
| r2_file_share (payload : option FileMetadata)
| other_type (type_ : string).

(** What the transport hands to [onData] or takes in [send].  A string is
    given by the object [JSON.parse] returns for it ([DJson]), or is a string
    on which the parse throws ([DText]). *)
Inductive Data :=
| DJson (message : Message)
| DText (raw : string)
| DArrayBuffer (chunk : bytes)
| DOther.

(** *** Constants *)

Definition CHUNK_SIZE : Z := 64 * 1024.
Definition P2P_RECEIVE_TIMEOUT_MS : Z := 30000.
Definition P2P_CONNECT_TIMEOUT_MS : Z := 15000.
Definition APP_MESSAGE_TIMEOUT_MS : Z := 7000.

(** *** [shouldCompress] *)

Definition alreadyCompressedTypes : list string :=
  [ "image/jpeg"; "image/png"; "image/gif"; "video/mp4";
    "application/zip"; "application/gzip"; "application/pdf" ].

Definition shouldCompress (file : File) : bool :=
  if endsWith (file_name file) ".gz" || endsWith (file_name file) ".zip"
     || endsWith (file_name file) ".rar"
  then false
  else negb (includes alreadyCompressedTypes (file_type file)).

(** *** Library functions *)

(** [pako.deflate] and [pako.inflate]. *)
Class Pako := {
  deflate : bytes -> Result bytes;
  inflate : bytes -> Result bytes;
}.

(** The JavaScript number for an integer below 2^63 in absolute value: the
    nearest double (the integer itself below 2^53). *)
Definition Number_of_Z (n : Z) : float :=
  if (n <? 0)%Z then (- of_uint63 (Uint63.of_Z (- n)))%float
  else of_uint63 (Uint63.of_Z n).

(** The rational a finite double stands for; [None] for [NaN] and the
    infinities. *)
Definition Q_of_Number (x : float) : option Q :=
  match Prim2SF x with
  | S754_zero _ => Some 0%Q
  | S754_finite s m e => Some (inject_Z (if s then Z.neg m else Z.pos m) * Qpower 2 e)%Q
  | _ => None
  end.

(** [Math.round]: the nearest integer, a half going up. *)
Definition Math_round (x : Q) : Z := Qfloor (x + (1 # 2)).

(** [Math.round((numerator / denominator) * 100)], the division and the
    product in double precision as JavaScript computes them.  With a zero
    denominator the quotient is [NaN] or [Infinity] and so is the percentage
    in JavaScript; the value here is then 0 (the sender never divides by
    zero: its loop does not run for an empty payload). *)
Definition percent (numerator denominator : Z) : Z :=
  match Q_of_Number (Number_of_Z numerator / Number_of_Z denominator * 100)%float with
  | Some q => Math_round q
  | None => 0%Z
  end.

Definition pretty_bool (b : bool) : string := if b then "true" else "false".

Definition quoted (s : string) : string :=
  let dq := String (Ascii.ascii_of_nat 34) EmptyString in dq +:+ s +:+ dq.

Definition member (key value : string) : string := quoted key +:+ ":" +:+ value.

Definition object (members : list string) : string :=
  "{" +:+ String.concat "," members +:+ "}".

(** [JSON.stringify] of a parsed control frame, without escapes; it is used
    for one log line. *)
Definition JSON_stringify (message : Message) : string :=
  match message with
  | file_meta None => object [member "type" (quoted "file-meta")]
  | file_meta (Some m) =>
      object [member "type" (quoted "file-meta");
              member "payload" (object [member "name" (quoted (meta_name m));
                                        member "size" (pretty (meta_size m));
                                        member "type" (quoted (meta_type m));
                                        member "isCompressed" (pretty_bool (meta_isCompressed m))])]
  | file_end None => object [member "type" (quoted "file-end")]
  | file_end (Some n) =>
      object [member "type" (quoted "file-end");
              member "payload" (object [member "name" (quoted n)])]
  | text t => object [member "type" (quoted "text"); member "payload" (quoted t)]
  | r2_file_share None => object [member "type" (quoted "r2-file-share")]
  | r2_file_share (Some md) =>
      object [member "type" (quoted "r2-file-share");
              member "payload" (object [member "filename" (quoted (filename md));
                                        member "uploadedAt" (quoted (uploadedAt md));
                                        member "contentType" (quoted (contentType md));
                                        member "size" (pretty (md_size md));
                                        member "isCompressed" (pretty_bool (md_isCompressed md))])]
  | other_type t => object [member "type" (quoted t)]
  end.

(** *** State, refs, timers and the trace *)

(** The [useState] values the handlers below read or write.  A render binds
    each to a constant; the closures created during that render see these
    constants, whatever is set afterwards. *)
Record State := {
  overallAppMessage : option OverallAppMessage;
  manualP2PService : option nat;
  manualP2PRoomIdInput : string;
  manualP2PCurrentRoomId : option string;
  manualP2PConnectionStatus : ConnectionStatus;
  manualP2PReceivedMessages : list P2PLogMessage;
  p2pFileTransferProgress : option TransferProgress;
  p2pReceivingFileMeta : option P2PFileMeta;
  p2pReceivedFileChunks : list bytes;
  itemToShare : option ShareItem;
  shareFlowStep : UnifiedShareFlowStep;
  shareP2PServiceInstance : option nat;
}.

Definition with_overallAppMessage (v : option OverallAppMessage) (c : State) : State :=
  {| overallAppMessage := v; manualP2PService := manualP2PService c; manualP2PRoomIdInput
     := manualP2PRoomIdInput c; manualP2PCurrentRoomId := manualP2PCurrentRoomId c;
     manualP2PConnectionStatus := manualP2PConnectionStatus c; manualP2PReceivedMessages :=
     manualP2PReceivedMessages c; p2pFileTransferProgress := p2pFileTransferProgress c;
     p2pReceivingFileMeta := p2pReceivingFileMeta c; p2pReceivedFileChunks :=
     p2pReceivedFileChunks c; itemToShare := itemToShare c; shareFlowStep := shareFlowStep
     c; shareP2PServiceInstance := shareP2PServiceInstance c |}.
Definition with_manualP2PService (v : option nat) (c : State) : State :=
  {| overallAppMessage := overallAppMessage c; manualP2PService := v; manualP2PRoomIdInput
     := manualP2PRoomIdInput c; manualP2PCurrentRoomId := manualP2PCurrentRoomId c;
     manualP2PConnectionStatus := manualP2PConnectionStatus c; manualP2PReceivedMessages :=
     manualP2PReceivedMessages c; p2pFileTransferProgress := p2pFileTransferProgress c;
     p2pReceivingFileMeta := p2pReceivingFileMeta c; p2pReceivedFileChunks :=
     p2pReceivedFileChunks c; itemToShare := itemToShare c; shareFlowStep := shareFlowStep
     c; shareP2PServiceInstance := shareP2PServiceInstance c |}.
Definition with_manualP2PRoomIdInput (v : string) (c : State) : State :=
  {| overallAppMessage := overallAppMessage c; manualP2PService := manualP2PService c;
     manualP2PRoomIdInput := v; manualP2PCurrentRoomId := manualP2PCurrentRoomId c;
     manualP2PConnectionStatus := manualP2PConnectionStatus c; manualP2PReceivedMessages :=
     manualP2PReceivedMessages c; p2pFileTransferProgress := p2pFileTransferProgress c;
     p2pReceivingFileMeta := p2pReceivingFileMeta c; p2pReceivedFileChunks :=
     p2pReceivedFileChunks c; itemToShare := itemToShare c; shareFlowStep := shareFlowStep
     c; shareP2PServiceInstance := shareP2PServiceInstance c |}.
Definition with_manualP2PCurrentRoomId (v : option string) (c : State) : State :=
  {| overallAppMessage := overallAppMessage c; manualP2PService := manualP2PService c;
     manualP2PRoomIdInput := manualP2PRoomIdInput c; manualP2PCurrentRoomId := v;
     manualP2PConnectionStatus := manualP2PConnectionStatus c; manualP2PReceivedMessages :=
     manualP2PReceivedMessages c; p2pFileTransferProgress := p2pFileTransferProgress c;
     p2pReceivingFileMeta := p2pReceivingFileMeta c; p2pReceivedFileChunks :=
     p2pReceivedFileChunks c; itemToShare := itemToShare c; shareFlowStep := shareFlowStep
     c; shareP2PServiceInstance := shareP2PServiceInstance c |}.
Definition with_manualP2PConnectionStatus (v : ConnectionStatus) (c : State) : State :=
  {| overallAppMessage := overallAppMessage c; manualP2PService := manualP2PService c;
     manualP2PRoomIdInput := manualP2PRoomIdInput c; manualP2PCurrentRoomId :=
     manualP2PCurrentRoomId c; manualP2PConnectionStatus := v; manualP2PReceivedMessages :=
     manualP2PReceivedMessages c; p2pFileTransferProgress := p2pFileTransferProgress c;
     p2pReceivingFileMeta := p2pReceivingFileMeta c; p2pReceivedFileChunks :=
     p2pReceivedFileChunks c; itemToShare := itemToShare c; shareFlowStep := shareFlowStep
     c; shareP2PServiceInstance := shareP2PServiceInstance c |}.
Definition with_manualP2PReceivedMessages (v : list P2PLogMessage) (c : State) : State :=
  {| overallAppMessage := overallAppMessage c; manualP2PService := manualP2PService c;
     manualP2PRoomIdInput := manualP2PRoomIdInput c; manualP2PCurrentRoomId :=
     manualP2PCurrentRoomId c; manualP2PConnectionStatus := manualP2PConnectionStatus c;
     manualP2PReceivedMessages := v; p2pFileTransferProgress := p2pFileTransferProgress c;
     p2pReceivingFileMeta := p2pReceivingFileMeta c; p2pReceivedFileChunks :=
     p2pReceivedFileChunks c; itemToShare := itemToShare c; shareFlowStep := shareFlowStep
     c; shareP2PServiceInstance := shareP2PServiceInstance c |}.
Definition with_p2pFileTransferProgress (v : option TransferProgress) (c : State) : State :=
  {| overallAppMessage := overallAppMessage c; manualP2PService := manualP2PService c;
     manualP2PRoomIdInput := manualP2PRoomIdInput c; manualP2PCurrentRoomId :=
     manualP2PCurrentRoomId c; manualP2PConnectionStatus := manualP2PConnectionStatus c;
     manualP2PReceivedMessages := manualP2PReceivedMessages c; p2pFileTransferProgress :=
     v; p2pReceivingFileMeta := p2pReceivingFileMeta c; p2pReceivedFileChunks :=
     p2pReceivedFileChunks c; itemToShare := itemToShare c; shareFlowStep := shareFlowStep
     c; shareP2PServiceInstance := shareP2PServiceInstance c |}.
Definition with_p2pReceivingFileMeta (v : option P2PFileMeta) (c : State) : State :=
  {| overallAppMessage := overallAppMessage c; manualP2PService := manualP2PService c;
     manualP2PRoomIdInput := manualP2PRoomIdInput c; manualP2PCurrentRoomId :=
     manualP2PCurrentRoomId c; manualP2PConnectionStatus := manualP2PConnectionStatus c;
     manualP2PReceivedMessages := manualP2PReceivedMessages c; p2pFileTransferProgress :=
     p2pFileTransferProgress c; p2pReceivingFileMeta := v; p2pReceivedFileChunks :=
     p2pReceivedFileChunks c; itemToShare := itemToShare c; shareFlowStep := shareFlowStep
     c; shareP2PServiceInstance := shareP2PServiceInstance c |}.
Definition with_p2pReceivedFileChunks (v : list bytes) (c : State) : State :=
  {| overallAppMessage := overallAppMessage c; manualP2PService := manualP2PService c;
     manualP2PRoomIdInput := manualP2PRoomIdInput c; manualP2PCurrentRoomId :=
     manualP2PCurrentRoomId c; manualP2PConnectionStatus := manualP2PConnectionStatus c;
     manualP2PReceivedMessages := manualP2PReceivedMessages c; p2pFileTransferProgress :=
     p2pFileTransferProgress c; p2pReceivingFileMeta := p2pReceivingFileMeta c;
     p2pReceivedFileChunks := v; itemToShare := itemToShare c; shareFlowStep :=
     shareFlowStep c; shareP2PServiceInstance := shareP2PServiceInstance c |}.
Definition with_itemToShare (v : option ShareItem) (c : State) : State :=
  {| overallAppMessage := overallAppMessage c; manualP2PService := manualP2PService c;
     manualP2PRoomIdInput := manualP2PRoomIdInput c; manualP2PCurrentRoomId :=
     manualP2PCurrentRoomId c; manualP2PConnectionStatus := manualP2PConnectionStatus c;
     manualP2PReceivedMessages := manualP2PReceivedMessages c; p2pFileTransferProgress :=
     p2pFileTransferProgress c; p2pReceivingFileMeta := p2pReceivingFileMeta c;
     p2pReceivedFileChunks := p2pReceivedFileChunks c; itemToShare := v; shareFlowStep :=
     shareFlowStep c; shareP2PServiceInstance := shareP2PServiceInstance c |}.
Definition with_shareFlowStep (v : UnifiedShareFlowStep) (c : State) : State :=
  {| overallAppMessage := overallAppMessage c; manualP2PService := manualP2PService c;
     manualP2PRoomIdInput := manualP2PRoomIdInput c; manualP2PCurrentRoomId :=
     manualP2PCurrentRoomId c; manualP2PConnectionStatus := manualP2PConnectionStatus c;
     manualP2PReceivedMessages := manualP2PReceivedMessages c; p2pFileTransferProgress :=
     p2pFileTransferProgress c; p2pReceivingFileMeta := p2pReceivingFileMeta c;
     p2pReceivedFileChunks := p2pReceivedFileChunks c; itemToShare := itemToShare c;
     shareFlowStep := v; shareP2PServiceInstance := shareP2PServiceInstance c |}.
Definition with_shareP2PServiceInstance (v : option nat) (c : State) : State :=
  {| overallAppMessage := overallAppMessage c; manualP2PService := manualP2PService c;
     manualP2PRoomIdInput := manualP2PRoomIdInput c; manualP2PCurrentRoomId :=
     manualP2PCurrentRoomId c; manualP2PConnectionStatus := manualP2PConnectionStatus c;
     manualP2PReceivedMessages := manualP2PReceivedMessages c; p2pFileTransferProgress :=
     p2pFileTransferProgress c; p2pReceivingFileMeta := p2pReceivingFileMeta c;
     p2pReceivedFileChunks := p2pReceivedFileChunks c; itemToShare := itemToShare c;
     shareFlowStep := shareFlowStep c; shareP2PServiceInstance := v |}.

(** The [useRef] objects; [ref.current] is read and written in place, so
    every closure sees the value it holds now. *)
Record Refs := {
  appMessageTimeoutRef : option positive;
  p2pReceiveTimeoutIdRef : option positive;
  shareP2PTimeoutIdRef : option positive;
}.

Definition with_appMessageTimeoutRef (v : option positive) (r : Refs) : Refs :=
  {| appMessageTimeoutRef := v; p2pReceiveTimeoutIdRef := p2pReceiveTimeoutIdRef r;
     shareP2PTimeoutIdRef := shareP2PTimeoutIdRef r |}.
Definition with_p2pReceiveTimeoutIdRef (v : option positive) (r : Refs) : Refs :=
  {| appMessageTimeoutRef := appMessageTimeoutRef r; p2pReceiveTimeoutIdRef := v;
     shareP2PTimeoutIdRef := shareP2PTimeoutIdRef r |}.
Definition with_shareP2PTimeoutIdRef (v : option positive) (r : Refs) : Refs :=
  {| appMessageTimeoutRef := appMessageTimeoutRef r; p2pReceiveTimeoutIdRef :=
     p2pReceiveTimeoutIdRef r; shareP2PTimeoutIdRef := v |}.

(** A pending [setTimeout] callback, by the closure it was created from.
    The callback of the connect timer reads [shareP2PServiceInstance],
    [shareFlowStep] and [itemToShare]: they are the constants of the render
    in which [executeShareAttempt] ran, kept here as [render]. *)
Inductive TimerCallback :=
| ClearAppMessage (text_ : string)                       (* in [setAppMessageFx] *)
| ReceiveTimeout (errorMessage : string) (p2pContext : P2PContext)
                                                         (* [() => resetP2PReceiveStates(...)] *)
| ConnectTimeout (render : State) (service : nat).       (* in [executeShareAttempt] *)

(** Calls that leave the component. *)
Inductive Effect :=
| ConsoleWarn (text_ : string)
| ConsoleLog (text_ : string)
| NewP2PService (service : nat) (roomId : string) (initiator : bool)
| ServiceSend (service : nat) (data : Data)
| ServiceDestroy (service : nat)
| BrowserDownload (name type_ : string) (content : bytes)   (* the anchor click on the blob *)
| HandleDownloadR2 (metadata : FileMetadata).

(** The component between two handlers: the state the next render will
    bind (every [set...] call applied), the refs, the browser's table of
    pending timers with the last timer id handed out, the last service
    created, and the trace. *)
Record World := {
  state : State;
  refs : Refs;
  timers : gmap positive (Z * TimerCallback);
  last_timer : positive;
  last_service : nat;
  trace : list Effect;
}.

(** A handler runs on a world.  [None] is the model's loop bound running
    out, which [send_chunks_terminates] excludes. *)
Definition M (A : Type) : Type := World -> option (A * World).

Instance M_ret : MRet M := fun A a w => Some (a, w).
Instance M_bind : MBind M := fun A B k m w =>
  match m w with
  | Some (a, w') => k a w'
  | None => None
  end.

Definition out_of_fuel {A} : M A := fun _ => None.

(** The constants a render binds: the state as it is when the render runs.
    An event handler attached by the render on screen is called with these. *)
Definition current_render : M State := fun w => Some (state w, w).

Definition update_state (update : State -> State) (w : World) : World :=
  {| state := update (state w); refs := refs w; timers := timers w;
     last_timer := last_timer w; last_service := last_service w; trace := trace w |}.

(** A [set...] call.  With a value it is [set (with_... v)]; with an updater
    function ([prev => ...]) the function is applied to the state as it is
    when the call is made, not to what the calling closure captured. *)
Definition set (update : State -> State) : M unit := fun w => Some (tt, update_state update w).

(** [ref.current], and an assignment to it. *)
Definition get_ref {A} (ref : Refs -> A) : M A := fun w => Some (ref (refs w), w).

Definition set_ref (update : Refs -> Refs) : M unit := fun w =>
  Some (tt, {| state := state w; refs := update (refs w); timers := timers w;
               last_timer := last_timer w; last_service := last_service w;
               trace := trace w |}).

Definition emit (e : Effect) : M unit := fun w =>
  Some (tt, {| state := state w; refs := refs w; timers := timers w;
               last_timer := last_timer w; last_service := last_service w;
               trace := trace w ++ [e] |}).

(** [setTimeout(callback, delay)]: a fresh positive id. *)
Definition setTimeout (callback : TimerCallback) (delay : Z) : M positive := fun w =>
  let id := Pos.succ (last_timer w) in
  Some (id, {| state := state w; refs := refs w;
               timers := <[id := (delay, callback)]> (timers w);
               last_timer := id; last_service := last_service w; trace := trace w |}).

Definition clearTimeout (id : positive) : M unit := fun w =>
  Some (tt, {| state := state w; refs := refs w; timers := delete id (timers w);
               last_timer := last_timer w; last_service := last_service w;
               trace := trace w |}).

(** [if (ref.current) clearTimeout(ref.current)] *)
Definition clear_if_set (ref : Refs -> option positive) : M unit :=
  r ← get_ref ref ;
  match r with
  | Some id => clearTimeout id
  | None => mret tt
  end.

(** [new P2PService({ roomId, initiator, ... })] *)
Definition new_P2PService (roomId : string) (initiator : bool) : M nat := fun w =>
  let service := S (last_service w) in
  Some (service, {| state := state w; refs := refs w; timers := timers w;
                    last_timer := last_timer w; last_service := service;
                    trace := trace w ++ [NewP2PService service roomId initiator] |}).

Definition when (b : bool) (m : M unit) : M unit := if b then m else mret tt.

(** [setManualP2PReceivedMessages(prev => [...prev, entry])] *)
Definition log_message (data sender : _) : M unit :=
  set (fun c => with_manualP2PReceivedMessages
                  (manualP2PReceivedMessages c ++ [{| log_data := data; log_sender := sender |}]) c).

Definition context_name (p2pContext : P2PContext) : string :=
  match p2pContext with
  | manual => "manual"
  | share_flow_receiver => "share_flow_receiver"
  end.

(** *** Handlers that throw *)

(** A handler that returns or throws; what it did before it threw stays
    done. *)
Definition MX (A : Type) : Type := M (Result A).

Instance MX_ret : MRet MX := fun A a w => Some (Ok a, w).
Instance MX_bind : MBind MX := fun A B k m w =>
  match m w with
  | Some (Ok a, w') => k a w'
  | Some (Throw e, w') => Some (Throw e, w')
  | None => None
  end.

(** A statement that does not throw, inside a handler that may. *)
Definition lift {A} (m : M A) : MX A := fun w =>
  match m w with
  | Some (a, w') => Some (Ok a, w')
  | None => None
  end.

(** Evaluating a name that has no binding. *)
Definition ReferenceError {A} (name : string) : MX A := fun w =>
  Some (Throw ("ReferenceError: " +:+ name +:+ " is not defined"), w).

(** [setShareFlowMessage(...)].  The component declares neither
    [shareFlowMessage] nor [setShareFlowMessage]: the [useState] line that
    did is commented out (line 95).  The call evaluates the name and
    throws. *)
Definition setShareFlowMessage (text_ : string) : MX unit :=
  ReferenceError "setShareFlowMessage".

(** *** [setAppMessageFx] *)

Definition setAppMessageFx (text_ : string) (type_ : AppMessageType) (duration : Z) : M unit :=
  clear_if_set appMessageTimeoutRef ;;
  set (with_overallAppMessage (Some {| app_text := text_; app_type := type_ |})) ;;
  match type_ with
  | error => mret tt
  | _ =>
      if (0 <? duration)%Z then
        id ← setTimeout (ClearAppMessage text_) duration ;
        set_ref (with_appMessageTimeoutRef (Some id))
      else mret tt
  end.

(** The callback armed by [setAppMessageFx]:
    [setOverallAppMessage(prev => (prev?.text === text ? null : prev))] *)
Definition clear_app_message (text_ : string) : M unit :=
  set (fun c =>
         match overallAppMessage c with
         | Some m => if String.eqb (app_text m) text_ then with_overallAppMessage None c else c
         | None => c
         end).

(** *** [resetP2PReceiveStates] *)

Definition resetP2PReceiveStates (errorMessage : option string)
    (p2pContext : option P2PContext) : M unit :=
  r ← get_ref p2pReceiveTimeoutIdRef ;
  match r with
  | Some id => clearTimeout id ;; set_ref (with_p2pReceiveTimeoutIdRef None)
  | None => mret tt
  end ;;
  set (with_p2pReceivingFileMeta None) ;;
  set (with_p2pReceivedFileChunks []) ;;
  set (with_p2pFileTransferProgress None) ;;
  match errorMessage with
  | Some errorMessage =>
      when (negb (String.eqb errorMessage EmptyString)) (
        let systemMessageText :=
          "System (" +:+ from_option context_name "P2P" p2pContext +:+ "): " +:+ errorMessage in
        match p2pContext with
        | Some manual => log_message systemMessageText system
        | _ => mret tt
        end ;;
        setAppMessageFx errorMessage error 0)
  | None => mret tt
  end.

Section Handlers.
Context `{Pako}.

(** *** [performP2PSendAndUpdateState] *)

(** [setP2PFileTransferProgress(prev => (prev?.filename === file.name &&
    prev.type === 'send' ? {...prev, progress} : prev))] *)
Definition update_send_progress (name : string) (progress : Z) (c : State) : State :=
  match p2pFileTransferProgress c with
  | Some prev =>
      match tp_type prev with
      | send =>
          if String.eqb (tp_filename prev) name then
            with_p2pFileTransferProgress
              (Some {| tp_type := tp_type prev; tp_filename := tp_filename prev;
                       tp_progress := progress |}) c
          else c
      | receive => c
      end
  | None => c
  end.

(** The [while (offset < fileSizeForSending)] loop.  [fuel] bounds the
    number of iterations of the model. *)
Fixpoint send_chunks (fuel : nat) (service : nat) (name : string)
    (fileDataForSending : bytes) (fileSizeForSending : Z)
    (onProgress : Z -> option string -> M unit) (offset : Z) : M unit :=
  if (offset <? fileSizeForSending)%Z then
    match fuel with
    | O => out_of_fuel
    | S fuel' =>
        let chunk := ArrayBuffer_slice fileDataForSending offset (offset + CHUNK_SIZE) in
        emit (ServiceSend service (DArrayBuffer chunk)) ;;
        let offset := (offset + byteLength chunk)%Z in
        let progress := percent offset fileSizeForSending in
        onProgress progress None ;;
        set (update_send_progress name progress) ;;
        send_chunks fuel' service name fileDataForSending fileSizeForSending onProgress offset
    end
  else mret tt.

(** [file.type || 'application/octet-stream'] *)
Definition originalFileType (file : File) : string :=
  if String.eqb (file_type file) EmptyString then "application/octet-stream"
  else file_type file.

Definition performP2PSendAndUpdateState (service : nat) (file : File)
    (onProgress : Z -> option string -> M unit) (onComplete : M unit)
    (onError : string -> M unit) : M unit :=
  set (with_p2pFileTransferProgress
         (Some {| tp_type := send; tp_filename := file_name file; tp_progress := 0 |})) ;;
  onProgress 0%Z (Some ("Preparing to send " +:+ file_name file +:+ " via P2P...")) ;;
  processed ←
    (if shouldCompress file then
       onProgress (-1)%Z (Some ("Compressing " +:+ file_name file +:+ "...")) ;;
       mret (match deflate (file_arrayBuffer file) with
             | Ok compressed => Ok (compressed, true)
             | Throw e => Throw e
             end)
     else mret (Ok (file_arrayBuffer file, false))) ;
  match processed with
  | Throw procError =>
      onError ("Error sending P2P file: File processing/compression error: " +:+ procError)
  | Ok (fileDataForSending, isCompressedForP2P) =>
      let fileSizeForSending := byteLength fileDataForSending in
      emit (ServiceSend service (DJson (file_meta (Some
        {| meta_name := file_name file; meta_size := fileSizeForSending;
           meta_type := originalFileType file; meta_isCompressed := isCompressedForP2P |})))) ;;
      onProgress 0%Z (Some ("Sending metadata for " +:+ file_name file +:+ "...")) ;;
      onProgress 0%Z (Some ("Sending " +:+ file_name file +:+ " in chunks...")) ;;
      send_chunks (length fileDataForSending) service (file_name file)
        fileDataForSending fileSizeForSending onProgress 0%Z ;;
      emit (ServiceSend service (DJson (file_end (Some (file_name file))))) ;;
      onComplete
  end.

(** The three callbacks [handleSendManualP2PFile] hands to the sender
    (lines 547-561) for the file [file] it captured. *)
Definition manual_onProgress (file : File) (progress : Z) (stepMsg : option string) : M unit :=
  set (with_p2pFileTransferProgress
         (Some {| tp_type := send; tp_filename := file_name file; tp_progress := progress |})) ;;
  match stepMsg with
  | Some (String c m) => setAppMessageFx ("Manual P2P: " +:+ String c m) info 0
  | _ =>
      when (0 <=? progress)%Z
        (setAppMessageFx ("Manual P2P: Sending " +:+ file_name file +:+ " "
                          +:+ pretty progress +:+ "%...") info 0)
  end.

(** [setFileForManualP2P(null)] and the reset of the file input are left
    out: no handler below reads them. *)
Definition manual_onComplete (file : File) : M unit :=
  setAppMessageFx ("Manual P2P: File " +:+ file_name file +:+ " sent successfully.") success
    APP_MESSAGE_TIMEOUT_MS ;;
  set (with_p2pFileTransferProgress None).

Definition manual_onError (errorMsg : string) : M unit :=
  setAppMessageFx ("Manual P2P: " +:+ errorMsg) error 0 ;;
  set (with_p2pFileTransferProgress None).

(** *** [commonP2POnDataHandler] *)

(** The handler is a closure: [render] holds the constants of the render
    in which it was created.  It reads [manualP2PService],
    [shareP2PServiceInstance], [p2pReceivingFileMeta] and
    [p2pReceivedFileChunks] there; what it sets goes to the state, which a
    later render binds, and which this closure never sees.  The refs it
    reads as they are. *)

Definition timed_out (name : string) : string :=
  "P2P file transfer for " +:+ name +:+ " timed out.".
Definition timed_out_chunks (name : string) : string :=
  "P2P file transfer for " +:+ name +:+ " timed out waiting for more chunks.".
Definition timed_out_file_end (name : string) : string :=
  "P2P file transfer for " +:+ name +:+ " timed out waiting for file-end message.".

(** The [file-meta] branch. *)
Definition on_file_meta (payload : P2PFileMeta) (p2pContext : P2PContext) : M unit :=
  clear_if_set p2pReceiveTimeoutIdRef ;;
  set (with_p2pReceivingFileMeta (Some payload)) ;;
  set (with_p2pReceivedFileChunks []) ;;
  set (with_p2pFileTransferProgress
         (Some {| tp_type := receive; tp_filename := meta_name payload; tp_progress := 0 |})) ;;
  log_message
    ("System (" +:+ context_name p2pContext +:+ "): Receiving file " +:+ meta_name payload
     +:+ " (" +:+ pretty (meta_size payload) +:+ " bytes, Type: " +:+ meta_type payload
     +:+ ", Compressed: " +:+ pretty_bool (meta_isCompressed payload) +:+ ")") system ;;
  id ← setTimeout (ReceiveTimeout (timed_out (meta_name payload)) p2pContext)
         P2P_RECEIVE_TIMEOUT_MS ;
  set_ref (with_p2pReceiveTimeoutIdRef (Some id)).

(** The [file-end] branch, for a name that matches the descriptor
    [currentReceivingFile] of the render. *)
Definition on_file_end (render : State) (currentReceivingFile : P2PFileMeta)
    (p2pContext : P2PContext) : M unit :=
  clear_if_set p2pReceiveTimeoutIdRef ;;
  set_ref (with_p2pReceiveTimeoutIdRef None) ;;
  let name := meta_name currentReceivingFile in
  setAppMessageFx ("P2P File " +:+ name +:+ " chunks received. Processing...") info 0 ;;
  let fullFileBlob := concat (p2pReceivedFileChunks render) in
  finalBlob ←
    (if meta_isCompressed currentReceivingFile then
       setAppMessageFx ("Decompressing P2P file " +:+ name +:+ "...") info 0 ;;
       match inflate fullFileBlob with
       | Ok decompressed =>
           setAppMessageFx ("P2P file " +:+ name +:+ " decompressed.") success
             APP_MESSAGE_TIMEOUT_MS ;;
           mret (Some decompressed)
       | Throw e =>
           resetP2PReceiveStates (Some ("Error decompressing file " +:+ name +:+ ": " +:+ e))
             (Some p2pContext) ;;
           mret None
       end
     else mret (Some fullFileBlob)) ;
  match finalBlob with
  | None => mret tt
  | Some finalBlob =>
      emit (BrowserDownload name (meta_type currentReceivingFile) finalBlob) ;;
      log_message ("System (" +:+ context_name p2pContext +:+ "): File " +:+ name
                   +:+ " received & download started.") system ;;
      setAppMessageFx ("P2P File " +:+ name +:+ " downloaded.") success APP_MESSAGE_TIMEOUT_MS ;;
      resetP2PReceiveStates None (Some p2pContext)
  end.

(** The final [else] of the string branch. *)
Definition on_other_message (message : Message) (p2pContext : P2PContext) : M unit :=
  log_message ("Peer (" +:+ context_name p2pContext +:+ "): " +:+ JSON_stringify message) peer.

(** The [ArrayBuffer] branch. *)
Definition on_chunk (render : State) (data : bytes) (p2pContext : P2PContext) : M unit :=
  match p2pReceivingFileMeta render with
  | Some p2pReceivingFileMeta =>
      clear_if_set p2pReceiveTimeoutIdRef ;;
      let currentChunks := p2pReceivedFileChunks render ++ [data] in
      set (with_p2pReceivedFileChunks currentChunks) ;;
      let currentSize := foldl (fun sum chunk => (sum + byteLength chunk)%Z) 0%Z currentChunks in
      let progress := percent currentSize (meta_size p2pReceivingFileMeta) in
      set (with_p2pFileTransferProgress
             (Some {| tp_type := receive; tp_filename := meta_name p2pReceivingFileMeta;
                      tp_progress := progress |})) ;;
      id ← (if (currentSize <? meta_size p2pReceivingFileMeta)%Z then
              setTimeout (ReceiveTimeout (timed_out_chunks (meta_name p2pReceivingFileMeta))
                            p2pContext) P2P_RECEIVE_TIMEOUT_MS
            else
              setTimeout (ReceiveTimeout (timed_out_file_end (meta_name p2pReceivingFileMeta))
                            p2pContext) (P2P_RECEIVE_TIMEOUT_MS / 2)%Z) ;
      set_ref (with_p2pReceiveTimeoutIdRef (Some id))
  | None =>
      emit (ConsoleWarn ("P2P (" +:+ context_name p2pContext
                         +:+ "): Received ArrayBuffer chunk but no file metadata is set."))
  end.

(** [p2pContext === 'manual' ? manualP2PService : shareP2PServiceInstance] *)
Definition currentP2PService (p2pContext : P2PContext) (render : State) : option nat :=
  match p2pContext with
  | manual => manualP2PService render
  | share_flow_receiver => shareP2PServiceInstance render
  end.

Definition commonP2POnDataHandler (render : State) (data : Data) (p2pContext : P2PContext)
    : M unit :=
  match currentP2PService p2pContext render with
  | None => mret tt
  | Some _ =>
      match data with
      | DJson message =>
          match message, p2pReceivingFileMeta render with
          | file_meta (Some payload), _ => on_file_meta payload p2pContext
          | file_end (Some name), Some p2pReceivingFileMeta =>
              if String.eqb name (meta_name p2pReceivingFileMeta)
              then on_file_end render p2pReceivingFileMeta p2pContext
              else on_other_message message p2pContext
          | text payload, _ => log_message payload peer
          | r2_file_share (Some r2Metadata), _ =>
              log_message ("Peer is sharing a cloud file: " +:+ filename r2Metadata
                           +:+ ". Starting download...") system ;;
              emit (HandleDownloadR2 r2Metadata)
          | _, _ => on_other_message message p2pContext
          end
      | DText raw => log_message raw peer
      | DArrayBuffer chunk => on_chunk render chunk p2pContext
      | DOther =>
          emit (ConsoleLog ("P2P (" +:+ context_name p2pContext
                            +:+ "): Received unknown data type:"))
      end
  end.

(** *** [startManualP2P] *)

(** [String.prototype.trim] leaves nothing: every character is white space
    (the ASCII ones). *)
Fixpoint blank (s : string) : bool :=
  match s with
  | EmptyString => true
  | String c s' =>
      let n := Ascii.nat_of_ascii c in
      (Nat.eqb n 32 || (Nat.leb 9 n && Nat.leb n 13)) && blank s'
  end.

(** [instance === service], for the constant [instance] of a render. *)
Definition is_instance (service_ : nat) (instance : option nat) : bool :=
  match instance with
  | Some s => Nat.eqb s service_
  | None => false
  end.

(** A connection: the service, and the render whose constants its
    callbacks captured.  [P2PService] keeps the callbacks it was constructed
    with ([this.options = options]) for as long as it lives. *)
Record Connection := {
  conn_service : nat;
  conn_render : State;
}.

(** [startManualP2P(isInitiator)], called from the render on screen.  The
    result is the connection made, if one was.  [setManualP2PService(service)]
    comes last: the render the callbacks captured has the service that was
    there before, [null] on a first connection. *)
Definition startManualP2P (isInitiator : bool) : M (option Connection) :=
  render ← current_render ;
  if blank (manualP2PRoomIdInput render) then
    setAppMessageFx "Please enter a Room ID for manual P2P." error APP_MESSAGE_TIMEOUT_MS ;;
    mret None
  else
    match manualP2PService render with
    | Some previous => emit (ServiceDestroy previous)
    | None => mret tt
    end ;;
    set (with_manualP2PService None) ;;
    set (with_manualP2PCurrentRoomId (Some (manualP2PRoomIdInput render))) ;;
    set (with_manualP2PConnectionStatus connecting) ;;
    set (with_manualP2PReceivedMessages []) ;;
    setAppMessageFx ("Manual P2P: Attempting to " +:+ (if isInitiator then "create" else "join")
                     +:+ " room '" +:+ manualP2PRoomIdInput render +:+ "'...") info 0 ;;
    resetP2PReceiveStates None (Some manual) ;;
    service ← new_P2PService (manualP2PRoomIdInput render) isInitiator ;
    set (with_manualP2PService (Some service)) ;;
    mret (Some {| conn_service := service; conn_render := render |}).

(** [onConnect] of a manual connection (lines 471-475).  The room named is
    [manualP2PCurrentRoomId || manualP2PRoomIdInput] of the render that
    made the connection. *)
Definition manual_connection_onConnect (connection : Connection) : M unit :=
  set (with_manualP2PConnectionStatus connected) ;;
  log_message "Manual P2P Connected!" system ;;
  let room :=
    match manualP2PCurrentRoomId (conn_render connection) with
    | Some (String c r) => String c r
    | _ => manualP2PRoomIdInput (conn_render connection)
    end in
  setAppMessageFx ("Manual P2P: Connected to room '" +:+ room +:+ "'") success
    APP_MESSAGE_TIMEOUT_MS.

(** [onError] of a manual connection (lines 477-483); [console.error] is
    left out. *)
Definition manual_connection_onError (connection : Connection) (err_message : string)
    : M unit :=
  set (with_manualP2PConnectionStatus failed) ;;
  let errorText := "Manual P2P Error: " +:+ err_message +:+ "." in
  log_message errorText system ;;
  setAppMessageFx errorText error 0 ;;
  when (is_instance (conn_service connection) (manualP2PService (conn_render connection)))
    (set (with_manualP2PService None)).

(** What the peer sends over a connection reaches [onData] of the service,
    frame after frame: every frame is handled by the one closure the
    service was constructed with. *)
Fixpoint receive_all (render : State) (frames : list Data) (p2pContext : P2PContext)
    : M unit :=
  match frames with
  | [] => mret tt
  | data :: rest =>
      commonP2POnDataHandler render data p2pContext ;; receive_all render rest p2pContext
  end.

(** *** [executeShareAttempt] and the callbacks it installs *)

(** What the callbacks of one attempt close over: the constants of the
    render in which [executeShareAttempt] ran, and its [service], [item] and
    [targetRoomId]. *)
Record Attempt := {
  attempt_render : State;
  service : nat;
  item : ShareItem;
  targetRoomId : string;
}.

Definition isDirectFileShare (a : Attempt) : bool :=
  match item a with
  | ItemFile _ => true
  | ItemPointer _ => false
  end.

Definition failureStep (direct : bool) : UnifiedShareFlowStep :=
  if direct then p2p_direct_transfer_failed_offer_r2 else share_failed.

(** [onError] (lines 635-646) *)
Definition share_onError (a : Attempt) (err_message : string) : MX unit :=
  lift (clear_if_set shareP2PTimeoutIdRef) ;;
  lift (set_ref (with_shareP2PTimeoutIdRef None)) ;;
  let userMessage :=
    "Share: P2P connection error: " +:+ err_message +:+ ". "
    +:+ (if isDirectFileShare a then "Offering Cloud fallback." else "Pointer share failed.") in
  setShareFlowMessage userMessage ;;
  lift (setAppMessageFx userMessage error 0) ;;
  lift (set (with_shareFlowStep (failureStep (isDirectFileShare a)))) ;;
  lift (emit (ServiceDestroy (service a))) ;;
  lift (when (is_instance (service a) (shareP2PServiceInstance (attempt_render a)))
          (set (with_shareP2PServiceInstance None))) ;;
  lift (set (with_p2pFileTransferProgress None)).

(** [onClose] (lines 647-659) *)
Definition share_onClose (a : Attempt) : MX unit :=
  lift (clear_if_set shareP2PTimeoutIdRef) ;;
  lift (set_ref (with_shareP2PTimeoutIdRef None)) ;;
  match shareFlowStep (attempt_render a) with
  | p2p_attempt | p2p_connected_for_action | p2p_direct_transfer
  | p2p_r2_pointer_attempt | p2p_r2_pointer_send =>
      let userMessage :=
        "Share: P2P connection closed. "
        +:+ (if isDirectFileShare a then "Offering Cloud fallback." else "Pointer share failed.") in
      setShareFlowMessage userMessage ;;
      lift (setAppMessageFx userMessage error 0) ;;
      lift (set (with_shareFlowStep (failureStep (isDirectFileShare a))))
  | _ => mret tt
  end ;;
  lift (when (is_instance (service a) (shareP2PServiceInstance (attempt_render a)))
          (set (with_shareP2PServiceInstance None))) ;;
  lift (set (with_p2pFileTransferProgress None)).

(** The callback armed with [P2P_CONNECT_TIMEOUT_MS] (lines 663-674). *)
Definition connect_timeout (render : State) (service_ : nat) : MX unit :=
  (if is_instance service_ (shareP2PServiceInstance render) &&
      match shareFlowStep render with
      | p2p_attempt | p2p_connected_for_action | p2p_r2_pointer_attempt => true
      | _ => false
      end
   then
     let failure := failureStep (instanceof_File (itemToShare render)) in
     let userMessage :=
       "Share: P2P connection attempt timed out. "
       +:+ (match failure with
            | p2p_direct_transfer_failed_offer_r2 => "Offering Cloud fallback."
            | _ => "Pointer share failed."
            end) in
     setShareFlowMessage userMessage ;;
     lift (setAppMessageFx userMessage error 0) ;;
     lift (emit (ServiceDestroy service_)) ;;
     lift (set (with_shareFlowStep failure))
   else mret tt) ;;
  lift (set_ref (with_shareP2PTimeoutIdRef None)).

(** [executeShareAttempt(item, targetRoomId)] (lines 567-675), called from
    the render on screen; the function is [async], a throw rejects its
    promise.  The result is the attempt whose callbacks were installed, if
    one was started.  [onConnect] (lines 585-633) is not modelled. *)
Definition executeShareAttempt (item_ : option ShareItem) (targetRoomId_ : string)
    : MX (option Attempt) :=
  render ← lift current_render ;
  match item_ with
  | None =>
      setShareFlowMessage "Error: No item selected for sharing." ;;
      lift (setAppMessageFx "Share Error: No item selected." error APP_MESSAGE_TIMEOUT_MS) ;;
      lift (set (with_shareFlowStep idle)) ;;
      mret None
  | Some i =>
      if blank targetRoomId_ then
        setShareFlowMessage "Target Room ID is required for sharing." ;;
        mret None
      else
        lift (match shareP2PServiceInstance render with
              | Some previous => emit (ServiceDestroy previous)
              | None => mret tt
              end) ;;
        lift (clear_if_set shareP2PTimeoutIdRef) ;;
        let initialStep :=
          match i with
          | ItemFile _ => p2p_attempt
          | ItemPointer _ => p2p_r2_pointer_attempt
          end in
        lift (set (with_shareFlowStep initialStep)) ;;
        setShareFlowMessage ("Share: Attempting P2P to room '" +:+ targetRoomId_ +:+ "'...") ;;
        lift (resetP2PReceiveStates None (Some share_flow_receiver)) ;;
        service_ ← lift (new_P2PService targetRoomId_ true) ;
        lift (set (with_shareP2PServiceInstance (Some service_))) ;;
        id ← lift (setTimeout (ConnectTimeout render service_) P2P_CONNECT_TIMEOUT_MS) ;
        lift (set_ref (with_shareP2PTimeoutIdRef (Some id))) ;;
        mret (Some {| attempt_render := render; service := service_; item := i;
                      targetRoomId := targetRoomId_ |})
  end.

(** The cleanup of the effect that depends on [shareP2PServiceInstance]
    (lines 113-120).  React runs it when a render commits another instance
    than the effect last saw, [previous], and when the component
    unmounts. *)
Definition share_effect_cleanup (previous : option nat) : M unit :=
  match previous with
  | Some instance => emit (ServiceDestroy instance)
  | None => mret tt
  end ;;
  clear_if_set shareP2PTimeoutIdRef ;;
  clear_if_set p2pReceiveTimeoutIdRef ;;
  clear_if_set appMessageTimeoutRef.

(** *** Timers firing *)

Definition run_callback (callback : TimerCallback) : MX unit :=
  match callback with
  | ClearAppMessage text_ => lift (clear_app_message text_)
  | ReceiveTimeout errorMessage p2pContext =>
      lift (resetP2PReceiveStates (Some errorMessage) (Some p2pContext))
  | ConnectTimeout render service_ => connect_timeout render service_
  end.

(** The pending timer [id] expires: it leaves the table and its callback
    runs.  A timer that is not pending cannot expire. *)
Definition timer_fires (id : positive) : MX unit := fun w =>
  match timers w !! id with
  | Some (_, callback) => (lift (clearTimeout id) ;; run_callback callback) w
  | None => Some (Ok tt, w)
  end.

End Handlers.

(** *** Reading a trace *)

(** The frames handed to [service.send], in order. *)
Definition sent (tr : list Effect) : list Data :=
  omap (fun e => match e with ServiceSend _ d => Some d | _ => None end) tr.

(** The files handed to the browser as downloads: name and content. *)
Definition delivered (tr : list Effect) : list (string * bytes) :=
  omap (fun e => match e with BrowserDownload n _ b => Some (n, b) | _ => None end) tr.

(** The transports created. *)
Definition created (tr : list Effect) : list nat :=
  omap (fun e => match e with NewP2PService s _ _ => Some s | _ => None end) tr.

(** *** Vocabulary of the statements *)

(** A callback that returns and hands nothing to [service.send]. *)
Definition quiet (m : M unit) : Prop :=
  forall w, exists w', m w = Some (tt, w') /\ sent (trace w') = sent (trace w).

(** The slice the sender takes at [offset]. *)
Definition chunk_at (data : bytes) (offset : Z) : bytes :=
  take (Z.to_nat CHUNK_SIZE) (drop (Z.to_nat offset) data).

(** The frames of one transfer. *)
Definition transfer_frames (m : P2PFileMeta) (chunks : list bytes) : list Data :=
  [DJson (file_meta (Some m))] ++ (DArrayBuffer <$> chunks)
  ++ [DJson (file_end (Some (meta_name m)))].

(** The pending timers once [ref.current], if set, is cleared. *)
Definition cancel (ref : option positive) (tm : gmap positive (Z * TimerCallback))
    : gmap positive (Z * TimerCallback) :=
  match ref with
  | Some id => delete id tm
  | None => tm
  end.

(** The bytes of a chunk list. *)
Definition received (chunks : list bytes) : Z :=
  foldl (fun sum chunk => (sum + byteLength chunk)%Z) 0%Z chunks.

(** No transfer is in progress: no descriptor, no chunk, no progress, no
    receive timer referenced, and the one that was referenced (an id the
    browser had handed out) is no longer pending. *)
Definition transfer_cleared (before w : World) : Prop :=
  p2pReceivingFileMeta (state w) = None /\
  p2pReceivedFileChunks (state w) = [] /\
  p2pFileTransferProgress (state w) = None /\
  p2pReceiveTimeoutIdRef (refs w) = None /\
  forall id, p2pReceiveTimeoutIdRef (refs before) = Some id ->
             (id <= last_timer before)%positive -> timers w !! id = None.

(** The log entry of a time-out, kept for a manual connection only. *)
Definition timeout_log (msg : string) (p2pContext : P2PContext) : list P2PLogMessage :=
  match p2pContext with
  | manual => [{| log_data := "System (manual): " +:+ msg; log_sender := system |}]
  | share_flow_receiver => []
  end.

(** The receive timer now referenced: its id, delay and message. *)
Definition armed (w : World) (delay : Z) (msg : string) (ctx : P2PContext) : Prop :=
  exists id, p2pReceiveTimeoutIdRef (refs w) = Some id /\
             timers w !! id = Some (delay, ReceiveTimeout msg ctx).

(** *** Worlds and a codec to run the handlers on *)

(** The state as [useState] initialises it, with a room id typed in, and
    the refs as [useRef] does. *)
Definition initial_state : State :=
  {| overallAppMessage := None; manualP2PService := None; manualP2PRoomIdInput := "room";
     manualP2PCurrentRoomId := None; manualP2PConnectionStatus := disconnected;
     manualP2PReceivedMessages := []; p2pFileTransferProgress := None;
     p2pReceivingFileMeta := None; p2pReceivedFileChunks := []; itemToShare := None;
     shareFlowStep := idle; shareP2PServiceInstance := None |}.

Definition initial_refs : Refs :=
  {| appMessageTimeoutRef := None; p2pReceiveTimeoutIdRef := None;
     shareP2PTimeoutIdRef := None |}.

Definition initial_world : World :=
  {| state := initial_state; refs := initial_refs; timers := ∅; last_timer := 1%positive;
     last_service := 0; trace := [] |}.

(** A codec that only frames its input: one zero byte in front. *)
Definition framing_codec : Pako :=
  {| deflate := fun b => Ok (Byte.x00 :: b);
     inflate := fun c => match c with
                         | Byte.x00 :: b => Ok b
                         | _ => Throw "incorrect header check"
                         end |}.

(** Files and descriptors to run the handlers on. *)
Definition plain_file : File :=
  {| file_name := "notes.txt"; file_type := "text/plain";
     file_arrayBuffer := [Byte.x68; Byte.x69] |}.

Definition plain_meta : P2PFileMeta :=
  {| meta_name := "notes.txt"; meta_size := 2; meta_type := "text/plain";
     meta_isCompressed := false |}.

Definition archive_file : File :=
  {| file_name := "bundle.zip"; file_type := "application/zip";
     file_arrayBuffer := replicate (Z.to_nat 200000) Byte.x00 |}.

Definition stored_file : FileMetadata :=
  {| filename := "report.pdf"; uploadedAt := "2025-04-01T00:00:00.000Z";
     contentType := "application/pdf"; md_size := 1024; md_isCompressed := false |}.

(** The world with one more entry in the trace. *)
Definition warn (e : Effect) (w : World) : World :=
  {| state := state w; refs := refs w; timers := timers w; last_timer := last_timer w;
     last_service := last_service w; trace := trace w ++ [e] |}.

(** The third of three manual connections, each started with the button
    that is enabled while the status is neither [connecting] nor
    [connected]: the first is made from the initial state and fails; the
    second connects, receives a [file-meta] frame and then fails; the third
    is made from the render that follows.  The result is the third
    connection and the component when it has been made. *)
Definition third_connection : option (Connection * World) :=
  match startManualP2P true initial_world with
  | Some (Some first, w1) =>
      match (manual_connection_onError first "Connection failed" ;;
             startManualP2P true) w1 with
      | Some (Some second, w2) =>
          match (manual_connection_onConnect second ;;
                 commonP2POnDataHandler (H := framing_codec) (conn_render second)
                   (DJson (file_meta (Some plain_meta))) manual ;;
                 manual_connection_onError second "Connection failed" ;;
                 startManualP2P true) w2 with
          | Some (Some third, w3) => Some (third, w3)
          | _ => None
          end
      | _ => None
      end
  | _ => None
  end.

(** The component once a stored file was picked for sharing. *)
Definition sharing_world : World :=
  update_state (fun c => with_shareFlowStep awaiting_room_id
                           (with_itemToShare (Some (ItemPointer stored_file)) c))
    initial_world.

(** *** Vocabulary of the further statements *)

(** The number of chunks a payload of [size] bytes is cut into, and the
    chunks: the slices at the multiples of [CHUNK_SIZE]. *)
Definition chunk_count (size : Z) : nat :=
  Z.to_nat ((size + CHUNK_SIZE - 1) / CHUNK_SIZE).

Definition chunks_of (data : bytes) : list bytes :=
  (fun i => chunk_at data (Z.of_nat i * CHUNK_SIZE)) <$> seq 0 (chunk_count (byteLength data)).

(** Whether [setAppMessageFx] arms a timer for the message it shows. *)
Definition expires (type_ : AppMessageType) (duration : Z) : bool :=
  match type_ with
  | error => false
  | _ => (0 <? duration)%Z
  end.

(** A codec whose [deflate] and [inflate] throw. *)
Definition failing_codec : Pako :=
  {| deflate := fun _ => Throw "invalid input";
     inflate := fun _ => Throw "incorrect header check" |}.

End App.

(** * Properties *)

(** ** The relay *)

Section Relay.
Import SignalingRoom.
Variables (env : Sockets) (server : nat) (messageData : string).

Lemma deliver_cases session :
  deliver env server messageData session =
    if decide (session = server) then []
    else match readyState (env session) with
         | OPEN => if send_throws (env session) then [ConsoleError session]
                   else [Send session messageData]
         | _ => []
         end.
Proof.
  unfold deliver. case_decide as Hs.
  - subst. by rewrite Nat.eqb_refl.
  - apply Nat.eqb_neq in Hs. rewrite Hs. simpl. by destruct (readyState (env session)).
Qed.

Lemma elem_of_forEach (e : Effect) f l :
  e ∈ forEach f l <-> exists session, session ∈ l /\ e ∈ f session.
Proof.
  induction l as [|x l IH]; simpl.
  - split; [by intros ?%elem_of_nil | by intros (? & ?%elem_of_nil & _)].
  - rewrite elem_of_app, IH. split.
    + intros [He | (s & Hs & He)]; [exists x | exists s]; split; auto;
        apply elem_of_cons; auto.
    + intros (s & [-> | Hs]%elem_of_cons & He); [by left | right; eauto].
Qed.

Lemma elem_of_deliver e session :
  e ∈ deliver env server messageData session <->
  session <> server /\ readyState (env session) = OPEN /\
  e = (if send_throws (env session) then ConsoleError session else Send session messageData).
Proof.
  rewrite deliver_cases. case_decide as Hs.
  - split; [by intros ?%elem_of_nil | by intros [? _]].
  - destruct (readyState (env session)), (send_throws (env session));
      rewrite ?list_elem_of_singleton; split;
      try (by intros ?%elem_of_nil); try (by intros (_ & ? & _));
      try (by intros ->); by intros (_ & _ & ->).
Qed.

(** C6. Fan-out of one inbound message from [server]: every other
    registered session that is OPEN and whose [send] does not throw is sent
    the message; whatever is sent is the message itself, to a registered OPEN
    session other than the sender; nothing at all is sent to the sender, and
    no failure is reported to it; a recipient whose [send] throws is logged
    and does not keep any other recipient from being served. *)
Theorem relay_fan_out (room : Room) :
  (forall session, session ∈ sessions room -> session <> server ->
     readyState (env session) = OPEN -> send_throws (env session) = false ->
     Send session messageData ∈ on_message env server messageData room) /\
  (forall session m, Send session m ∈ on_message env server messageData room ->
     m = messageData /\ session ∈ sessions room /\ session <> server /\
     readyState (env session) = OPEN) /\
  (forall e, e ∈ on_message env server messageData room ->
     e <> ConsoleError server /\ forall m, e <> Send server m) /\
  (forall session, session ∈ sessions room -> session <> server ->
     readyState (env session) = OPEN -> send_throws (env session) = true ->
     ConsoleError session ∈ on_message env server messageData room).
Proof.
  unfold on_message. split_and!.
  - intros session Hin Hne Hop Hth. apply elem_of_forEach. exists session; split; [done|].
    apply elem_of_deliver. by rewrite Hth.
  - intros session m (s & Hs & He)%elem_of_forEach.
    apply elem_of_deliver in He as (Hne & Hop & He).
    destruct (send_throws (env s)); [discriminate He|]. by injection He as -> ->.
  - intros e (s & Hs & He)%elem_of_forEach.
    apply elem_of_deliver in He as (Hne & _ & ->).
    destruct (send_throws (env s)); split; try intros m; congruence.
  - intros session Hin Hne Hop Hth. apply elem_of_forEach. exists session; split; [done|].
    apply elem_of_deliver. by rewrite Hth.
Qed.

End Relay.

(** ** The relay endpoint *)

Section Endpoint.
Import SignalingRoom Worker.


Lemma fetch_status request room :
  (not_websocket_upgrade request = true ->
     status (fetch request room).1 = 426%Z /\ (fetch request room).2 = room) /\
  (not_websocket_upgrade request = false ->
     status (fetch request room).1 = 101%Z /\
     sessions (fetch request room).2 = sessions room ++ [next_socket room]).
Proof. unfold fetch. split; intros ->; done. Qed.

Lemma room_of_insert ns roomId room other :
  room_of (<[roomId := room]> ns) other = if decide (roomId = other) then room else room_of ns other.
Proof. unfold room_of. rewrite lookup_insert. by case_decide. Qed.

Lemma param_roomId_absent request : room_absent request -> param_roomId request = None.
Proof. unfold param_roomId. by intros [-> | ->]. Qed.

Lemma param_roomId_named request roomId :
  names_room request roomId -> param_roomId request = Some roomId.
Proof.
  unfold param_roomId. intros [-> Hne]. simpl.
  apply String.eqb_neq in Hne. by rewrite Hne.
Qed.

Lemma param_roomId_Some request roomId :
  param_roomId request = Some roomId -> names_room request roomId.
Proof.
  unfold param_roomId, names_room.
  destruct (path request) as [|first [|second [|third [|]]]]; try discriminate.
  destruct (String.eqb_spec first "ws") as [->|]; [|discriminate].
  destruct (String.eqb_spec second "signaling") as [->|]; [|discriminate].
  destruct (String.eqb_spec third EmptyString) as [|Hne]; [discriminate|].
  simpl. by intros [= <-].
Qed.

(** C8, as amended.  The endpoint answers with a client error when the
    room id is absent from the path.  With a room id, it answers 500 when
    the worker has no signaling binding or the call to the room object
    throws; otherwise 426 to a request that is not a websocket upgrade, and
    101 to one that is.  Unless the answer is 101 every room keeps its
    sessions; on 101 the named room gains exactly the new session and every
    other room keeps its sessions. *)
Theorem signaling_route_responses (request : Request) (stub_fetch_throws : bool) (env : Env) :
  let response := (signaling_route request stub_fetch_throws env).1 in
  let env' := (signaling_route request stub_fetch_throws env).2 in
  (room_absent request -> (400 <= status response < 500)%Z) /\
  (forall roomId, names_room request roomId ->
     (SIGNALING_ROOM_DO env = None \/ stub_fetch_throws = true -> status response = 500%Z) /\
     (SIGNALING_ROOM_DO env <> None -> stub_fetch_throws = false ->
        status response = if not_websocket_upgrade request then 426%Z else 101%Z)) /\
  (status response <> 101%Z -> forall roomId, sessions_of env' roomId = sessions_of env roomId) /\
  (status response = 101%Z ->
     exists roomId server,
       names_room request roomId /\ webSocket response = Some server /\
       sessions_of env' roomId = sessions_of env roomId ++ [server] /\
       forall other, other <> roomId -> sessions_of env' other = sessions_of env other).
Proof.
  unfold signaling_route.
  destruct (param_roomId request) as [roomId|] eqn:Hparam; simpl.
  2: { split_and!; [done | | done | done].
       intros roomId Hnamed%param_roomId_named. congruence. }
  pose proof (param_roomId_Some _ _ Hparam) as Hnamed.
  assert (Hsame : forall other, names_room request other -> other = roomId).
  { intros other Hother%param_roomId_named. congruence. }
  assert (Habsent : ~ room_absent request).
  { intros Habsent%param_roomId_absent. congruence. }
  destruct Hnamed as [Hpath Hne]. unfold signaling_handler.
  destruct roomId as [|c r]; [done|].
  destruct env as [[ns|]]; simpl; [|by intuition (try discriminate)].
  destruct stub_fetch_throws; simpl; [by intuition (try discriminate)|].
  unfold fetch. destruct (not_websocket_upgrade request) eqn:Hu; simpl.
  { split_and!; [by intuition (try discriminate) .. | | done].
    intros _ other. unfold sessions_of; simpl. rewrite room_of_insert. by case_decide; subst. }
  split_and!; [by intuition (try discriminate) .. |].
  intros _. exists (String c r), (next_socket (room_of ns (String c r))).
  split_and!; [done | done | |].
  - unfold sessions_of; simpl. rewrite room_of_insert. by case_decide.
  - intros other Hother. unfold sessions_of; simpl. rewrite room_of_insert. case_decide; congruence.
Qed.

(** C8, as stated, fails: a websocket upgrade that names a room is answered
    500, not 101, by a worker that has no signaling binding. *)
Lemma signaling_route_not_always_101 :
  ~ (forall request stub_fetch_throws env,
       let response := (signaling_route request stub_fetch_throws env).1 in
       (not_websocket_upgrade request = true \/ room_absent request ->
          (400 <= status response < 500)%Z) /\
       (~ (not_websocket_upgrade request = true \/ room_absent request) ->
          status response = 101%Z)).
Proof.
  intros Hclaim.
  destruct (Hclaim {| header_Upgrade := Some "websocket"; path := ["ws"; "signaling"; "room"] |}
              false {| SIGNALING_ROOM_DO := None |}) as [_ H101].
  simpl in H101. unfold room_absent in H101; simpl in H101.
  assert (500 = 101)%Z; [apply H101; intros [?|[?|?]]; discriminate | discriminate].
Qed.

Lemma signaling_route_responses_witness :
  status (signaling_route
            {| header_Upgrade := Some "websocket"; path := ["ws"; "signaling"; "room"] |}
            false {| SIGNALING_ROOM_DO := Some ∅ |}).1 = 101%Z /\
  status (signaling_route {| header_Upgrade := None; path := ["ws"; "signaling"; "room"] |}
            false {| SIGNALING_ROOM_DO := Some ∅ |}).1 = 426%Z /\
  (400 <= status (signaling_route {| header_Upgrade := Some "websocket";
                                     path := ["ws"; "signaling"] |}
                    false {| SIGNALING_ROOM_DO := Some ∅ |}).1 < 500)%Z.
Proof.
  assert (Hroom : forall h, names_room {| header_Upgrade := h; path := ["ws"; "signaling"; "room"] |}
                              "room") by (by split).
  split; [|split].
  - destruct (signaling_route_responses
                {| header_Upgrade := Some "websocket"; path := ["ws"; "signaling"; "room"] |}
                false {| SIGNALING_ROOM_DO := Some ∅ |}) as (_ & Hnamed & _).
    destruct (Hnamed "room" (Hroom _)) as [_ Hok]. apply Hok; [discriminate | reflexivity].
  - destruct (signaling_route_responses
                {| header_Upgrade := None; path := ["ws"; "signaling"; "room"] |}
                false {| SIGNALING_ROOM_DO := Some ∅ |}) as (_ & Hnamed & _).
    destruct (Hnamed "room" (Hroom _)) as [_ Hok]. apply Hok; [discriminate | reflexivity].
  - destruct (signaling_route_responses
                {| header_Upgrade := Some "websocket"; path := ["ws"; "signaling"] |}
                false {| SIGNALING_ROOM_DO := Some ∅ |}) as (Habsent & _).
    apply Habsent. by left.
Defined.

End Endpoint.

(** ** The peer transport *)

Section Transport.
Import P2PService.



Lemma destroy_eq (f : Fields) (tr : list Effect) :
  destroy (f, tr) =
    Ok (tt, (released, tr ++ [ConsoleLog "P2PService: Destroying..."] ++ release_calls f)).
Proof.
  destruct f as [[p|] [w|]];
    cbv [destroy release_calls released mbind Method_bind mret Method_ret emit get_peer
         get_ws set_peer set_ws call when_set peer ws];
    rewrite <- ?app_assoc; reflexivity.
Qed.

(** C9. From any fields, [destroy()] returns without throwing, leaves both
    references null, and has called [destroy] on the peer and [close] on the
    signaling socket it held; a second [destroy()] returns as well, changes
    nothing and makes no call on either object. *)
Theorem destroy_idempotent (f : Fields) (tr : list Effect) :
  exists tr1,
    destroy (f, tr) = Ok (tt, (released, tr1)) /\
    (forall p, peer f = Some p -> PeerDestroy p ∈ tr1) /\
    (forall w, ws f = Some w -> WsClose w ∈ tr1) /\
    destroy (released, tr1) =
      Ok (tt, (released, tr1 ++ [ConsoleLog "P2PService: Destroying..."])).
Proof.
  eexists. split; [apply destroy_eq|]. split_and!.
  - intros p Hp. unfold release_calls. rewrite Hp. set_solver.
  - intros w Hw. unfold release_calls. rewrite Hw. set_solver.
  - rewrite destroy_eq. reflexivity.
Qed.

End Transport.

(** ** The component *)

Import App.


Ltac unfold_state :=
  cbv [state refs timers last_timer last_service trace update_state overallAppMessage
       manualP2PService manualP2PRoomIdInput manualP2PCurrentRoomId
       manualP2PConnectionStatus manualP2PReceivedMessages p2pFileTransferProgress
       p2pReceivingFileMeta p2pReceivedFileChunks itemToShare shareFlowStep
       shareP2PServiceInstance appMessageTimeoutRef p2pReceiveTimeoutIdRef
       shareP2PTimeoutIdRef with_overallAppMessage with_manualP2PService
       with_manualP2PRoomIdInput with_manualP2PCurrentRoomId with_manualP2PConnectionStatus
       with_manualP2PReceivedMessages with_p2pFileTransferProgress
       with_p2pReceivingFileMeta with_p2pReceivedFileChunks with_itemToShare
       with_shareFlowStep with_shareP2PServiceInstance with_appMessageTimeoutRef
       with_p2pReceiveTimeoutIdRef with_shareP2PTimeoutIdRef] in *.

Ltac run :=
  cbv [commonP2POnDataHandler currentP2PService on_file_meta on_file_end on_chunk
       on_other_message startManualP2P
       resetP2PReceiveStates setAppMessageFx clear_app_message clear_if_set log_message when
       timer_fires run_callback andb orb negb
       mbind mret M_bind M_ret MX_bind MX_ret lift ReferenceError setShareFlowMessage
       current_render set get_ref set_ref emit setTimeout clearTimeout out_of_fuel
       state refs timers last_timer last_service trace update_state overallAppMessage
       manualP2PService manualP2PRoomIdInput manualP2PCurrentRoomId
       manualP2PConnectionStatus manualP2PReceivedMessages p2pFileTransferProgress
       p2pReceivingFileMeta p2pReceivedFileChunks itemToShare shareFlowStep
       shareP2PServiceInstance appMessageTimeoutRef p2pReceiveTimeoutIdRef
       shareP2PTimeoutIdRef with_overallAppMessage with_manualP2PService
       with_manualP2PRoomIdInput with_manualP2PCurrentRoomId with_manualP2PConnectionStatus
       with_manualP2PReceivedMessages with_p2pFileTransferProgress
       with_p2pReceivingFileMeta with_p2pReceivedFileChunks with_itemToShare
       with_shareFlowStep with_shareP2PServiceInstance with_appMessageTimeoutRef
       with_p2pReceiveTimeoutIdRef with_shareP2PTimeoutIdRef].

(** [id] is not pending in a table built from inserts at later ids and
    deletes, one of which is at [id]. *)
Ltac not_pending :=
  repeat first
    [ rewrite lookup_insert_ne by lia
    | apply lookup_delete_None; first [ left; reflexivity | right ] ].

Ltac run_timed :=
  run; change (0 <? 0)%Z with false; change (0 <? APP_MESSAGE_TIMEOUT_MS)%Z with true; run.

Ltac step_share :=
  cbv [executeShareAttempt connect_timeout share_onClose share_onError share_effect_cleanup
       new_P2PService is_instance failureStep instanceof_File
       isDirectFileShare attempt_render service item targetRoomId
       resetP2PReceiveStates setAppMessageFx clear_app_message clear_if_set log_message when
       timer_fires run_callback andb orb negb
       mbind mret M_bind M_ret MX_bind MX_ret lift ReferenceError setShareFlowMessage
       current_render set get_ref set_ref emit setTimeout clearTimeout out_of_fuel
       state refs timers last_timer last_service trace update_state overallAppMessage
       manualP2PService manualP2PRoomIdInput manualP2PCurrentRoomId
       manualP2PConnectionStatus manualP2PReceivedMessages p2pFileTransferProgress
       p2pReceivingFileMeta p2pReceivedFileChunks itemToShare shareFlowStep
       shareP2PServiceInstance appMessageTimeoutRef p2pReceiveTimeoutIdRef
       shareP2PTimeoutIdRef with_overallAppMessage with_manualP2PService
       with_manualP2PRoomIdInput with_manualP2PCurrentRoomId with_manualP2PConnectionStatus
       with_manualP2PReceivedMessages with_p2pFileTransferProgress
       with_p2pReceivingFileMeta with_p2pReceivedFileChunks with_itemToShare
       with_shareFlowStep with_shareP2PServiceInstance with_appMessageTimeoutRef
       with_p2pReceiveTimeoutIdRef with_shareP2PTimeoutIdRef].

Ltac run_share :=
  step_share;
  change (0 <? 0)%Z with false; change (0 <? APP_MESSAGE_TIMEOUT_MS)%Z with true;
  step_share.


(** ** The compression policy *)

Section Compression.


Lemma endsWith_spec s suffix : endsWith s suffix = true <-> ends_with s suffix.
Proof.
  unfold ends_with. induction s as [|c s IH].
  - change (endsWith EmptyString suffix) with (String.eqb EmptyString suffix || false).
    rewrite orb_false_r, String.eqb_eq. split.
    + intros <-. by exists EmptyString.
    + intros [[|c front] Hf]; simpl in Hf; [done | discriminate].
  - change (endsWith (String c s) suffix)
      with (String.eqb (String c s) suffix || endsWith s suffix).
    rewrite orb_true_iff, String.eqb_eq, IH. split.
    + intros [<- | [front ->]]; [by exists EmptyString | by exists (String c front)].
    + intros [[|c' front] Hf]; simpl in Hf; [by left | right].
      injection Hf as -> ->. by exists front.
Qed.

Lemma includes_spec l x : includes l x = true <-> x ∈ l.
Proof.
  unfold includes. rewrite existsb_exists. setoid_rewrite String.eqb_eq.
  rewrite list_elem_of_In. split; [by intros (y & Hy & ->) | by exists x].
Qed.


End Compression.

(** ** Chunked transfer: the sender *)

Section Sender.


Lemma bind_run {A B} (m : M A) (k : A -> M B) w a w1 :
  m w = Some (a, w1) -> (m ≫= k) w = k a w1.
Proof. unfold mbind, M_bind. by intros ->. Qed.

Lemma sent_app tr1 tr2 : sent (tr1 ++ tr2) = sent tr1 ++ sent tr2.
Proof. apply omap_app. Qed.

Lemma emit_run e w :
  exists w', emit e w = Some (tt, w') /\ state w' = state w /\ timers w' = timers w /\
             last_timer w' = last_timer w /\ trace w' = trace w ++ [e].
Proof. eexists. by split_and!. Qed.

Lemma set_quiet f : quiet (set f).
Proof. intros w. eexists. by split. Qed.

Lemma byteLength_nonneg (b : bytes) : (0 <= byteLength b)%Z.
Proof. unfold byteLength. lia. Qed.

Lemma slice_chunk (data : bytes) offset :
  (0 <= offset <= byteLength data)%Z ->
  ArrayBuffer_slice data offset (offset + CHUNK_SIZE) =
    take (Z.to_nat CHUNK_SIZE) (drop (Z.to_nat offset) data).
Proof.
  intros Ho. unfold ArrayBuffer_slice, clamp_index, CHUNK_SIZE in *.
  replace (offset <? 0)%Z with false by lia.
  replace (offset + 64 * 1024 <? 0)%Z with false by lia.
  rewrite (Z.min_l offset) by lia.
  unfold byteLength in *.
  destruct (Z.le_gt_cases (offset + 64 * 1024) (Z.of_nat (length data))) as [Hle|Hgt].
  - rewrite Z.min_l by lia. f_equal. lia.
  - rewrite Z.min_r by lia.
    rewrite !take_ge; [done | rewrite length_drop; lia | rewrite length_drop; lia].
Qed.

Lemma byteLength_chunk (data : bytes) offset :
  (0 <= offset <= byteLength data)%Z ->
  byteLength (take (Z.to_nat CHUNK_SIZE) (drop (Z.to_nat offset) data)) =
    Z.min CHUNK_SIZE (byteLength data - offset).
Proof.
  intros Ho. unfold byteLength, CHUNK_SIZE in *. rewrite length_take, length_drop. lia.
Qed.

Variables (service_ : nat) (name : string) (data : bytes).
Variable onProgress : Z -> option string -> M unit.

(** One turn of the loop, with the slice and the new offset worked out. *)
Lemma send_chunks_step fuel offset :
  (0 <= offset < byteLength data)%Z ->
  send_chunks (S fuel) service_ name data (byteLength data) onProgress offset =
    (let offset' := (offset + Z.min CHUNK_SIZE (byteLength data - offset))%Z in
     emit (ServiceSend service_
             (DArrayBuffer (take (Z.to_nat CHUNK_SIZE) (drop (Z.to_nat offset) data)))) ;;
     onProgress (percent offset' (byteLength data)) None ;;
     set (update_send_progress name (percent offset' (byteLength data))) ;;
     send_chunks fuel service_ name data (byteLength data) onProgress offset').
Proof.
  intros Ho. cbn [send_chunks].
  replace (offset <? byteLength data)%Z with true by lia.
  rewrite slice_chunk, byteLength_chunk by lia. reflexivity.
Qed.

Lemma send_chunks_done fuel size offset :
  (size <= offset)%Z ->
  send_chunks fuel service_ name data size onProgress offset = mret tt.
Proof.
  intros Ho. destruct fuel; cbn [send_chunks];
    by replace (offset <? size)%Z with false by lia.
Qed.

Hypothesis onProgress_quiet : forall progress stepMessage, quiet (onProgress progress stepMessage).

(** The loop ends within [fuel] turns when [fuel] covers the bytes left, and
    what it sent is the rest of the buffer cut into chunks of 1 to
    [CHUNK_SIZE] bytes. *)
Lemma send_chunks_terminates fuel : forall offset w,
  (0 <= offset <= byteLength data)%Z ->
  (byteLength data - offset <= Z.of_nat fuel)%Z ->
  exists w' chunks,
    send_chunks fuel service_ name data (byteLength data) onProgress offset w = Some (tt, w') /\
    sent (trace w') = sent (trace w) ++ (DArrayBuffer <$> chunks) /\
    concat chunks = drop (Z.to_nat offset) data /\
    Forall (fun c => 0 < byteLength c <= CHUNK_SIZE)%Z chunks.
Proof.
  induction fuel as [|fuel IH]; intros offset w Ho Hfuel.
  - rewrite send_chunks_done by lia. exists w, []. split_and!; [done | by rewrite fmap_nil, app_nil_r | | done].
    simpl. rewrite drop_ge; [done | unfold byteLength in *; lia].
  - destruct (Z.le_gt_cases (byteLength data) offset) as [Hdone|Hmore].
    + rewrite send_chunks_done by lia. exists w, [].
      split_and!; [done | by rewrite fmap_nil, app_nil_r | | done].
      simpl. rewrite drop_ge; [done | unfold byteLength in *; lia].
    + rewrite send_chunks_step by lia. cbv zeta.
      set (chunk := take (Z.to_nat CHUNK_SIZE) (drop (Z.to_nat offset) data)).
      set (offset' := (offset + Z.min CHUNK_SIZE (byteLength data - offset))%Z).
      assert (Hlen : byteLength chunk = Z.min CHUNK_SIZE (byteLength data - offset))
        by (apply byteLength_chunk; lia).
      assert (HC : (0 < CHUNK_SIZE)%Z) by done.
      destruct (emit_run (ServiceSend service_ (DArrayBuffer chunk)) w)
        as (w1 & Hrun1 & _ & _ & _ & Htr1).
      rewrite (bind_run _ _ _ _ _ Hrun1).
      destruct (onProgress_quiet (percent offset' (byteLength data)) None w1)
        as (w2 & Hrun2 & Htr2).
      rewrite (bind_run _ _ _ _ _ Hrun2).
      destruct (set_quiet (update_send_progress name (percent offset' (byteLength data))) w2)
        as (w3 & Hrun3 & Htr3).
      rewrite (bind_run _ _ _ _ _ Hrun3).
      destruct (IH offset' w3) as (w' & chunks & Hrun & Hsent & Hcat & Hall); [lia | lia |].
      exists w', (chunk :: chunks). split_and!.
      * done.
      * rewrite Hsent, Htr3, Htr2, Htr1, sent_app. simpl. by rewrite <- app_assoc.
      * simpl. rewrite Hcat. subst chunk offset'.
        replace (Z.to_nat (offset + Z.min CHUNK_SIZE (byteLength data - offset)))
          with (Z.to_nat offset + Z.to_nat (Z.min CHUNK_SIZE (byteLength data - offset)))%nat by lia.
        rewrite <- drop_drop.
        destruct (Z.le_gt_cases CHUNK_SIZE (byteLength data - offset)).
        -- rewrite Z.min_l by lia. apply take_drop.
        -- rewrite Z.min_r by lia.
           rewrite take_ge by (rewrite length_drop; unfold byteLength, CHUNK_SIZE in *; lia).
           rewrite (drop_ge (drop _ data)) by (rewrite length_drop; unfold byteLength in *; lia).
           apply app_nil_r.
      * constructor; [lia | done].
Qed.

End Sender.

Section SenderRun.
Context `{Pako}.


Lemma bind_ret_l {A B} (a : A) (k : A -> M B) : (mret a ≫= k) = k a.
Proof. reflexivity. Qed.

Lemma send_chunks_next service_ name data onProgress fuel size offset offset' :
  size = byteLength data ->
  (0 <= offset < size)%Z ->
  offset' = (offset + Z.min CHUNK_SIZE (size - offset))%Z ->
  send_chunks (S fuel) service_ name data size onProgress offset =
    (emit (ServiceSend service_ (DArrayBuffer (chunk_at data offset))) ;;
     onProgress (percent offset' size) None ;;
     set (update_send_progress name (percent offset' size)) ;;
     send_chunks fuel service_ name data size onProgress offset').
Proof. intros -> Ho ->. by apply send_chunks_step. Qed.

(** The percentages of the 200,000-byte transfer, and one where the double
    quotient lies below the exact one: 1507328 / 2621440 is 0.575, the
    double product is below 57.5. *)
Lemma percent_200000 :
  percent 65536 200000 = 33%Z /\ percent 131072 200000 = 66%Z /\
  percent 196608 200000 = 98%Z /\ percent 200000 200000 = 100%Z.
Proof. by vm_compute. Qed.

Lemma percent_in_double : percent 1507328 2621440 = 57%Z /\ percent 1 0 = 0%Z.
Proof. by vm_compute. Qed.

(** C4. A file of 200,000 bytes whose declared type is one of the listed
    incompressible types is sent by exactly this sequence: one [file-meta]
    frame (size 200000, not compressed), then the chunks at offsets 0,
    65536, 131072 and 196608, of 65536, 65536, 65536 and 3392 bytes, which
    together are the file's bytes, each followed by a progress report of 33,
    66, 98 and 100, then one [file-end] frame, then [onComplete]. *)
Theorem send_200000_bytes (service_ : nat) (file : File)
    (onProgress : Z -> option string -> M unit) (onComplete : M unit)
    (onError : string -> M unit) :
  file_type file ∈ alreadyCompressedTypes ->
  byteLength (file_arrayBuffer file) = 200000%Z ->
  let data := file_arrayBuffer file in
  let name := file_name file in
  let chunk offset := ServiceSend service_ (DArrayBuffer (chunk_at data offset)) in
  byteLength <$> [chunk_at data 0; chunk_at data 65536; chunk_at data 131072;
                  chunk_at data 196608] = [65536; 65536; 65536; 3392]%Z /\
  chunk_at data 0 ++ chunk_at data 65536 ++ chunk_at data 131072 ++ chunk_at data 196608 = data /\
  performP2PSendAndUpdateState service_ file onProgress onComplete onError =
    (set (with_p2pFileTransferProgress
            (Some {| tp_type := send; tp_filename := name; tp_progress := 0 |})) ;;
     onProgress 0%Z (Some ("Preparing to send " +:+ name +:+ " via P2P...")) ;;
     emit (ServiceSend service_ (DJson (file_meta (Some
       {| meta_name := name; meta_size := 200000; meta_type := file_type file;
          meta_isCompressed := false |})))) ;;
     onProgress 0%Z (Some ("Sending metadata for " +:+ name +:+ "...")) ;;
     onProgress 0%Z (Some ("Sending " +:+ name +:+ " in chunks...")) ;;
     (emit (chunk 0%Z) ;;
      onProgress 33%Z None ;; set (update_send_progress name 33) ;;
      emit (chunk 65536%Z) ;;
      onProgress 66%Z None ;; set (update_send_progress name 66) ;;
      emit (chunk 131072%Z) ;;
      onProgress 98%Z None ;; set (update_send_progress name 98) ;;
      emit (chunk 196608%Z) ;;
      onProgress 100%Z None ;; set (update_send_progress name 100) ;;
      mret tt) ;;
     emit (ServiceSend service_ (DJson (file_end (Some name)))) ;;
     onComplete).
Proof.
  intros Htype Hsize data name chunk.
  assert (Hlen : Z.of_nat (length data) = 200000%Z) by exact Hsize.
  split_and!.
  - unfold chunk_at, CHUNK_SIZE. simpl fmap. unfold byteLength.
    rewrite !length_take, !length_drop. repeat f_equal; lia.
  - unfold chunk_at, CHUNK_SIZE.
    change (Z.to_nat 131072) with (Z.to_nat 65536 + Z.to_nat 65536)%nat.
    change (Z.to_nat 196608) with (Z.to_nat 65536 + (Z.to_nat 65536 + Z.to_nat 65536))%nat.
    change (Z.to_nat (64 * 1024)) with (Z.to_nat 65536).
    change (Z.to_nat 0) with 0%nat. rewrite drop_0.
    rewrite <- !drop_drop.
    rewrite (take_ge (drop _ (drop _ (drop _ data)))) by (rewrite !length_drop; lia).
    by rewrite !take_drop.
  - assert (Hshould : shouldCompress file = false).
    { unfold shouldCompress. apply includes_spec in Htype. rewrite Htype.
      by destruct (_ || _). }
    assert (Horig : originalFileType file = file_type file).
    { unfold originalFileType. destruct (String.eqb_spec (file_type file) EmptyString) as [He|]; [|done].
      rewrite He in Htype. by repeat (apply elem_of_cons in Htype as [?|Htype]; [done|]); apply elem_of_nil in Htype. }
    unfold performP2PSendAndUpdateState. rewrite Hshould, bind_ret_l. cbv beta iota.
    subst data name chunk. rewrite Horig, Hsize.
    replace (length (file_arrayBuffer file))
      with (S (S (S (S (length (file_arrayBuffer file) - 4))))) by lia.
    destruct percent_200000 as (<- & <- & <- & <-).
    rewrite (send_chunks_next _ _ _ _ _ _ 0 65536)%Z by (rewrite ?Hsize; done).
    rewrite (send_chunks_next _ _ _ _ _ _ 65536 131072)%Z by (rewrite ?Hsize; done).
    rewrite (send_chunks_next _ _ _ _ _ _ 131072 196608)%Z by (rewrite ?Hsize; done).
    rewrite (send_chunks_next _ _ _ _ _ _ 196608 200000)%Z by (rewrite ?Hsize; done).
    rewrite send_chunks_done by lia.
    reflexivity.
Qed.

End SenderRun.

(** ** Chunked transfer: the receiver *)

Section Receiver.
Context `{Pako}.

Lemma delivered_app tr1 tr2 : delivered (tr1 ++ tr2) = delivered tr1 ++ delivered tr2.
Proof. apply omap_app. Qed.

(** The guard at the head of the handler: for a render without a service
    for the context, whatever arrives, nothing happens. *)
Lemma handler_without_service render data ctx w :
  currentP2PService ctx render = None ->
  commonP2POnDataHandler render data ctx w = Some (tt, w).
Proof. intros Hs. unfold commonP2POnDataHandler. by rewrite Hs. Qed.

Lemma receive_all_without_service render ctx frames : forall w,
  currentP2PService ctx render = None ->
  receive_all render frames ctx w = Some (tt, w).
Proof.
  induction frames as [|data frames IH]; intros w Hs; [done|].
  cbn [receive_all]. unfold mbind, M_bind.
  rewrite handler_without_service by done. by apply IH.
Qed.

(** For a render without a descriptor a chunk is a stray one: a console
    warning, and nothing else. *)
Lemma handle_chunk_without_descriptor render data ctx s w :
  currentP2PService ctx render = Some s ->
  p2pReceivingFileMeta render = None ->
  commonP2POnDataHandler render (DArrayBuffer data) ctx w =
    Some (tt, warn (ConsoleWarn ("P2P (" +:+ context_name ctx
                      +:+ "): Received ArrayBuffer chunk but no file metadata is set.")) w).
Proof.
  intros Hs Hm. unfold commonP2POnDataHandler, on_chunk. by rewrite Hs, Hm.
Qed.

Lemma receive_chunks_without_descriptor render ctx s chunks : forall w,
  currentP2PService ctx render = Some s ->
  p2pReceivingFileMeta render = None ->
  exists w',
    receive_all render (DArrayBuffer <$> chunks) ctx w = Some (tt, w') /\
    state w' = state w /\ refs w' = refs w /\ timers w' = timers w /\
    last_timer w' = last_timer w /\ delivered (trace w') = delivered (trace w).
Proof.
  induction chunks as [|chunk chunks IH]; intros w Hs Hm.
  - by exists w.
  - cbn [fmap list_fmap receive_all]. unfold mbind, M_bind.
    rewrite (handle_chunk_without_descriptor _ _ _ s) by done.
    destruct (IH (warn (ConsoleWarn ("P2P (" +:+ context_name ctx
                +:+ "): Received ArrayBuffer chunk but no file metadata is set.")) w) Hs Hm)
      as (w' & Hrun & Hstate & Hrefs & Htimers & Hlast & Hdelivered).
    exists w'. split_and!; try done.
    rewrite Hdelivered. unfold warn; simpl. rewrite delivered_app. apply app_nil_r.
Qed.

(** A [file-meta] frame, for a render with a service: the descriptor goes
    to the state and a receive timer of [P2P_RECEIVE_TIMEOUT_MS] is armed. *)
Lemma handle_file_meta render m ctx s w :
  currentP2PService ctx render = Some s ->
  exists w',
    commonP2POnDataHandler render (DJson (file_meta (Some m))) ctx w = Some (tt, w') /\
    p2pReceivingFileMeta (state w') = Some m /\
    p2pReceivedFileChunks (state w') = [] /\
    armed w' P2P_RECEIVE_TIMEOUT_MS (timed_out (meta_name m)) ctx /\
    trace w' = trace w.
Proof.
  destruct w as [c r tm lt ls tr]; destruct c, r; intros Hs; unfold armed.
  unfold commonP2POnDataHandler. rewrite Hs. run.
  destruct p2pReceiveTimeoutIdRef0;
    (eexists; split; [reflexivity|]; split_and!; try done;
     eexists; split; [reflexivity | apply lookup_insert_eq]).
Qed.

(** What a closure hands to the browser: nothing, when its render has no
    descriptor. *)
Lemma handler_delivers_nothing render data ctx w :
  p2pReceivingFileMeta render = None ->
  exists w',
    commonP2POnDataHandler render data ctx w = Some (tt, w') /\
    delivered (trace w') = delivered (trace w).
Proof.
  destruct w as [c r tm lt ls tr]; destruct c, r; intros Hm.
  unfold commonP2POnDataHandler, on_chunk. rewrite Hm.
  destruct (currentP2PService ctx render) as [s|]; [|by eexists].
  destruct data as [[[m|]|[n|]|t|[md|]|ty]|raw|chunk|]; run;
    try destruct p2pReceiveTimeoutIdRef0; run;
    (eexists; split; [reflexivity|]; simpl; rewrite ?delivered_app; simpl;
     by rewrite ?app_nil_r).
Qed.

Lemma receive_all_delivers_nothing render ctx frames : forall w,
  p2pReceivingFileMeta render = None ->
  exists w',
    receive_all render frames ctx w = Some (tt, w') /\
    delivered (trace w') = delivered (trace w).
Proof.
  induction frames as [|data frames IH]; intros w Hm; [by exists w|].
  destruct (handler_delivers_nothing render data ctx w Hm) as (w1 & Hrun1 & Hd1).
  destruct (IH w1 Hm) as (w2 & Hrun2 & Hd2).
  exists w2. split; [|congruence].
  cbn [receive_all]. unfold mbind, M_bind. by rewrite Hrun1.
Qed.

(** [startManualP2P] with a room id typed in: the connection made holds the
    render the handler was called from; the service goes to the state
    only. *)
Lemma start_manual isInitiator w :
  blank (manualP2PRoomIdInput (state w)) = false ->
  exists w1,
    startManualP2P isInitiator w =
      Some (Some {| conn_service := S (last_service w); conn_render := state w |}, w1) /\
    manualP2PService (state w1) = Some (S (last_service w)) /\
    p2pReceivingFileMeta (state w1) = None /\
    p2pReceivedFileChunks (state w1) = [] /\
    delivered (trace w1) = delivered (trace w).
Proof.
  destruct w as [c r tm lt ls tr]; destruct c, r. cbv [state manualP2PRoomIdInput].
  intros Hblank. run. rewrite Hblank. cbv [new_P2PService]. run.
  destruct manualP2PService0, appMessageTimeoutRef0, p2pReceiveTimeoutIdRef0; run;
    (eexists; split; [reflexivity|]; split_and!; try done;
     simpl; rewrite ?delivered_app; simpl; by rewrite ?app_nil_r).
Qed.

Lemma timeout_text_nonempty n msg :
  msg ∈ [timed_out n; timed_out_chunks n; timed_out_file_end n] -> msg <> EmptyString.
Proof.
  intros Hin ->. repeat (apply elem_of_cons in Hin as [Hin|Hin]; [discriminate Hin|]).
  by apply elem_of_nil in Hin.
Qed.

(** A pending receive timer expires: the transfer is cleared, the timer is
    gone, and its message is shown as an error (and logged for a manual
    connection). *)
Lemma receive_timer_fires w id delay msg ctx :
  timers w !! id = Some (delay, ReceiveTimeout msg ctx) ->
  msg <> EmptyString ->
  exists w',
    timer_fires id w = Some (Ok tt, w') /\
    transfer_cleared w w' /\
    timers w' !! id = None /\
    overallAppMessage (state w') = Some {| app_text := msg; app_type := error |} /\
    manualP2PReceivedMessages (state w') =
      manualP2PReceivedMessages (state w) ++ timeout_log msg ctx /\
    trace w' = trace w.
Proof.
  destruct w as [c r tm lt ls tr]; destruct c, r; intros Ht Hmsg;
    unfold transfer_cleared; unfold_state.
  apply String.eqb_neq in Hmsg.
  run. rewrite Ht. run. rewrite Hmsg.
  destruct ctx, p2pReceiveTimeoutIdRef0, appMessageTimeoutRef0; run;
    (eexists; split; [reflexivity|]; split_and!;
      [ done .. | intros id' Hid Hle; try discriminate; injection Hid as <-; not_pending
      | not_pending | done | by rewrite ?app_nil_r | done ]).
Qed.

(** A chunk, for a render with a descriptor: it is put behind the chunks
    of the render, whatever the state holds. *)
Lemma handle_chunk_with_descriptor render m data ctx s w :
  currentP2PService ctx render = Some s ->
  p2pReceivingFileMeta render = Some m ->
  exists w',
    commonP2POnDataHandler render (DArrayBuffer data) ctx w = Some (tt, w') /\
    p2pReceivedFileChunks (state w') = p2pReceivedFileChunks render ++ [data] /\
    p2pFileTransferProgress (state w') =
      Some {| tp_type := receive; tp_filename := meta_name m;
              tp_progress := percent (received (p2pReceivedFileChunks render ++ [data]))
                               (meta_size m) |} /\
    p2pReceiveTimeoutIdRef (refs w') = Some (Pos.succ (last_timer w)) /\
    timers w' !! Pos.succ (last_timer w) =
      Some (if (received (p2pReceivedFileChunks render ++ [data]) <? meta_size m)%Z
            then (P2P_RECEIVE_TIMEOUT_MS,
                  ReceiveTimeout (timed_out_chunks (meta_name m)) ctx)
            else ((P2P_RECEIVE_TIMEOUT_MS / 2)%Z,
                  ReceiveTimeout (timed_out_file_end (meta_name m)) ctx)) /\
    trace w' = trace w.
Proof.
  destruct w as [c r tm lt ls tr]; destruct c, r; intros Hs Hm.
  unfold commonP2POnDataHandler, on_chunk, received. rewrite Hs, Hm. run.
  destruct p2pReceiveTimeoutIdRef0, (_ <? _)%Z; run;
    (eexists; split; [reflexivity|]; split_and!; try done; apply lookup_insert_eq).
Qed.

End Receiver.

(** ** Chunked transfer: the claims *)

Section Transfer.
Context `{Pako}.


(** What the sender puts on the wire for [file]: the payload is the file's
    bytes, deflated when [shouldCompress] says so; the frames are one
    [file-meta], the payload in chunks of 1 to [CHUNK_SIZE] bytes, and one
    [file-end]. *)
Lemma perform_sent service_ file onProgress onComplete onError payload w :
  (forall progress stepMessage, quiet (onProgress progress stepMessage)) ->
  quiet onComplete ->
  (if shouldCompress file then deflate (file_arrayBuffer file) = Ok payload
   else payload = file_arrayBuffer file) ->
  exists w' chunks,
    performP2PSendAndUpdateState service_ file onProgress onComplete onError w = Some (tt, w') /\
    sent (trace w') = sent (trace w) ++
      transfer_frames {| meta_name := file_name file; meta_size := byteLength payload;
                         meta_type := originalFileType file;
                         meta_isCompressed := shouldCompress file |} chunks /\
    concat chunks = payload /\
    Forall (fun c => 0 < byteLength c <= CHUNK_SIZE)%Z chunks.
Proof.
  intros HonP HonC Hpayload. unfold performP2PSendAndUpdateState.
  destruct (set_quiet (with_p2pFileTransferProgress
              (Some {| tp_type := send; tp_filename := file_name file; tp_progress := 0 |})) w)
    as (w1 & Hrun1 & Htr1).
  rewrite (bind_run _ _ _ _ _ Hrun1).
  destruct (HonP 0%Z (Some ("Preparing to send " +:+ file_name file +:+ " via P2P...")) w1)
    as (w2 & Hrun2 & Htr2).
  rewrite (bind_run _ _ _ _ _ Hrun2).
  assert (exists w3,
    (if shouldCompress file
     then onProgress (-1)%Z (Some ("Compressing " +:+ file_name file +:+ "...")) ;;
          mret (match deflate (file_arrayBuffer file) with
                | Ok compressed => Ok (compressed, true)
                | Throw e => Throw e
                end)
     else mret (Ok (file_arrayBuffer file, false))) w2
    = Some (Ok (payload, shouldCompress file), w3) /\ sent (trace w3) = sent (trace w2))
    as (w3 & Hrun3 & Htr3).
  { destruct (shouldCompress file).
    - destruct (HonP (-1)%Z (Some ("Compressing " +:+ file_name file +:+ "...")) w2)
        as (w3 & Hrun3 & Htr3).
      exists w3. rewrite (bind_run _ _ _ _ _ Hrun3), Hpayload. by split.
    - exists w2. by rewrite Hpayload. }
  rewrite (bind_run _ _ _ _ _ Hrun3). cbv beta iota.
  set (m := {| meta_name := file_name file; meta_size := byteLength payload;
               meta_type := originalFileType file; meta_isCompressed := shouldCompress file |}).
  destruct (emit_run (ServiceSend service_ (DJson (file_meta (Some m)))) w3)
    as (w4 & Hrun4 & _ & _ & _ & Htr4).
  rewrite (bind_run _ _ _ _ _ Hrun4).
  destruct (HonP 0%Z (Some ("Sending metadata for " +:+ file_name file +:+ "...")) w4)
    as (w5 & Hrun5 & Htr5).
  rewrite (bind_run _ _ _ _ _ Hrun5).
  destruct (HonP 0%Z (Some ("Sending " +:+ file_name file +:+ " in chunks...")) w5)
    as (w6 & Hrun6 & Htr6).
  rewrite (bind_run _ _ _ _ _ Hrun6).
  destruct (send_chunks_terminates service_ (file_name file) payload onProgress HonP
              (length payload) 0%Z w6)
    as (w7 & chunks & Hrun7 & Htr7 & Hcat & Hall);
    [pose proof (byteLength_nonneg payload); lia | unfold byteLength; lia |].
  rewrite (bind_run _ _ _ _ _ Hrun7).
  destruct (emit_run (ServiceSend service_ (DJson (file_end (Some (file_name file))))) w7)
    as (w8 & Hrun8 & _ & _ & _ & Htr8).
  rewrite (bind_run _ _ _ _ _ Hrun8).
  destruct (HonC w8) as (w9 & Hrun9 & Htr9).
  exists w9, chunks. split_and!; [done | | by rewrite Hcat, drop_0 | done].
  rewrite Htr9, Htr8, sent_app, Htr7, Htr6, Htr5, Htr4, sent_app, Htr3, Htr2, Htr1.
  unfold transfer_frames. simpl. by rewrite <- !app_assoc.
Qed.

(** C7. [shouldCompress] is true exactly when the declared type is none of
    the seven listed types and the name ends in none of [.gz], [.zip],
    [.rar]; two files with the same name and declared type get the same
    answer whatever their content; and the sender deflates the payload, and
    says so in the descriptor it sends, exactly when [shouldCompress] is
    true. *)
Theorem shouldCompress_policy (file : File) :
  (shouldCompress file = true <->
     (file_type file ∉ [ "image/jpeg"; "image/png"; "image/gif"; "video/mp4";
                         "application/zip"; "application/gzip"; "application/pdf" ]) /\
     ~ ends_with (file_name file) ".gz" /\
     ~ ends_with (file_name file) ".zip" /\
     ~ ends_with (file_name file) ".rar") /\
  (forall other : File,
     file_name other = file_name file -> file_type other = file_type file ->
     shouldCompress other = shouldCompress file) /\
  (forall service_ onProgress onComplete onError payload w,
     (forall progress stepMessage, quiet (onProgress progress stepMessage)) ->
     quiet onComplete ->
     (if shouldCompress file then deflate (file_arrayBuffer file) = Ok payload
      else payload = file_arrayBuffer file) ->
     exists w' chunks,
       performP2PSendAndUpdateState service_ file onProgress onComplete onError w
         = Some (tt, w') /\
       sent (trace w') = sent (trace w) ++
         transfer_frames {| meta_name := file_name file; meta_size := byteLength payload;
                            meta_type := originalFileType file;
                            meta_isCompressed := shouldCompress file |} chunks /\
       concat chunks = payload).
Proof.
  split_and!.
  - unfold shouldCompress. rewrite <- !endsWith_spec.
    change [ "image/jpeg"; "image/png"; "image/gif"; "video/mp4";
             "application/zip"; "application/gzip"; "application/pdf" ]
      with alreadyCompressedTypes.
    rewrite <- includes_spec.
    destruct (endsWith (file_name file) ".gz"), (endsWith (file_name file) ".zip"),
      (endsWith (file_name file) ".rar"), (includes alreadyCompressedTypes (file_type file));
      simpl; intuition congruence.
  - intros other Hn Ht. unfold shouldCompress. by rewrite Hn, Ht.
  - intros service_ onProgress onComplete onError payload w HonP HonC Hpayload.
    destruct (perform_sent service_ file onProgress onComplete onError payload w
                HonP HonC Hpayload) as (w' & chunks & ? & ? & ? & _).
    by exists w', chunks.
Qed.

(** C1 does not hold of the component.  Whatever bytes the file holds, the
    sender emits a [file-meta], the payload in chunks and a [file-end]; a
    receiving component that made its connection while no transfer was in
    progress (every first connection is such) handles these frames with the
    closure of the render that made the connection, whose descriptor is
    [null]: it hands nothing to the browser. *)
Theorem round_trip_delivers_nothing (service_ : nat) (file : File)
    (onProgress : Z -> option string -> M unit) (onComplete : M unit)
    (onError : string -> M unit) (sender receiver : World) (isInitiator : bool) :
  (forall progress stepMessage, quiet (onProgress progress stepMessage)) ->
  quiet onComplete ->
  (shouldCompress file = true -> exists c, deflate (file_arrayBuffer file) = Ok c) ->
  blank (manualP2PRoomIdInput (state receiver)) = false ->
  p2pReceivingFileMeta (state receiver) = None ->
  exists sender' connection receiver1 receiver' m chunks,
    performP2PSendAndUpdateState service_ file onProgress onComplete onError sender
      = Some (tt, sender') /\
    sent (trace sender') = sent (trace sender) ++ transfer_frames m chunks /\
    meta_name m = file_name file /\
    startManualP2P isInitiator receiver = Some (Some connection, receiver1) /\
    receive_all (conn_render connection) (transfer_frames m chunks) manual receiver1
      = Some (tt, receiver') /\
    delivered (trace receiver') = delivered (trace receiver).
Proof.
  intros HonP HonC Hdeflate Hroom Hidle.
  assert (exists payload,
    if shouldCompress file then deflate (file_arrayBuffer file) = Ok payload
    else payload = file_arrayBuffer file) as [payload Hpayload].
  { destruct (shouldCompress file); [by apply Hdeflate | by eexists]. }
  destruct (perform_sent service_ file onProgress onComplete onError payload sender
              HonP HonC Hpayload) as (sender' & chunks & Hrun & Hsent & _ & _).
  set (m := {| meta_name := file_name file; meta_size := byteLength payload;
               meta_type := originalFileType file;
               meta_isCompressed := shouldCompress file |}) in *.
  destruct (start_manual isInitiator receiver Hroom)
    as (receiver1 & Hstart & _ & _ & _ & Hdelivered1).
  destruct (receive_all_delivers_nothing (state receiver) manual (transfer_frames m chunks)
              receiver1 Hidle) as (receiver' & Hreceive & Hdelivered).
  eexists sender', _, receiver1, receiver', m, chunks.
  split_and!; [done | done | done | exact Hstart | exact Hreceive | congruence].
Qed.

End Transfer.

Section ReceiverClaims.
Context `{Pako}.

(** C2 does not hold of the component.  The handler of a connection made
    while no service was in the state (a first connection) does nothing on
    any frame, so a [file-meta] arms no deadline.  On a connection made
    later, while no transfer was in progress, a [file-meta] arms a receive
    timer of 30000 ms, but the chunks that follow are tested against the
    descriptor of the render that made the connection, which is [null]:
    they arm nothing and change nothing, so the deadline is not refreshed
    and the 15000 ms rule is never applied.  What does hold is the expiry:
    when a pending receive timer fires, descriptor, chunks, progress and
    timer reference are cleared and the time-out is shown as an error. *)
Theorem chunks_do_not_refresh_deadline (render : State) (ctx : P2PContext) (w : World) :
  (currentP2PService ctx render = None ->
     forall data, commonP2POnDataHandler render data ctx w = Some (tt, w)) /\
  (forall s m, currentP2PService ctx render = Some s -> p2pReceivingFileMeta render = None ->
     exists w1,
       commonP2POnDataHandler render (DJson (file_meta (Some m))) ctx w = Some (tt, w1) /\
       armed w1 30000 (timed_out (meta_name m)) ctx /\
       forall chunks, exists w2,
         receive_all render (DArrayBuffer <$> chunks) ctx w1 = Some (tt, w2) /\
         state w2 = state w1 /\ refs w2 = refs w1 /\ timers w2 = timers w1 /\
         last_timer w2 = last_timer w1) /\
  (forall id delay name msg,
     msg ∈ [timed_out name; timed_out_chunks name; timed_out_file_end name] ->
     timers w !! id = Some (delay, ReceiveTimeout msg ctx) -> exists w',
     timer_fires id w = Some (Ok tt, w') /\
     transfer_cleared w w' /\
     timers w' !! id = None /\
     overallAppMessage (state w') = Some {| app_text := msg; app_type := error |}).
Proof.
  split_and!.
  - intros Hs data. by apply handler_without_service.
  - intros s m Hs Hm.
    destruct (handle_file_meta render m ctx s w Hs) as (w1 & Hrun & _ & _ & Harmed & _).
    exists w1. split_and!; [done | done |].
    intros chunks.
    destruct (receive_chunks_without_descriptor render ctx s chunks w1 Hs Hm)
      as (w2 & Hrun2 & ? & ? & ? & ? & _).
    by exists w2.
  - intros id delay name msg Hmsg Hpending.
    destruct (receive_timer_fires w id delay msg ctx Hpending)
      as (w' & Hrun & Hcleared & Hgone & Hshown & _); [by eapply timeout_text_nonempty|].
    by exists w'.
Qed.

(** C3 does not hold of the component.  On a first manual connection
    (no service in the state when [startManualP2P] runs) the handler is the
    closure of a render whose [manualP2PService] is [null]: a [file-meta]
    frame, like any other frame, is dropped at the guard and no descriptor
    is recorded. *)
Theorem first_connection_records_no_descriptor (isInitiator : bool) (w : World) :
  blank (manualP2PRoomIdInput (state w)) = false ->
  manualP2PService (state w) = None ->
  exists connection w1,
    startManualP2P isInitiator w = Some (Some connection, w1) /\
    manualP2PService (state w1) = Some (conn_service connection) /\
    p2pReceivingFileMeta (state w1) = None /\
    forall frames, receive_all (conn_render connection) frames manual w1 = Some (tt, w1).
Proof.
  intros Hroom Hfirst.
  destruct (start_manual isInitiator w Hroom) as (w1 & Hstart & Hservice & Hmeta & _).
  eexists _, w1. split_and!; [exact Hstart | done | done |].
  intros frames. by apply receive_all_without_service.
Qed.

(** C10 does not hold of the component.  The handler tests the descriptor
    of the render that made the connection, not the one in the state: when
    that render had a descriptor, a chunk that arrives while the state holds
    none is not discarded.  It is put behind the chunks of that render and
    written to the state, a receive progress is set and a receive timer is
    armed; no warning is logged. *)
Theorem stale_descriptor_takes_chunk (render : State) (ctx : P2PContext) (s : nat)
    (m : P2PFileMeta) (data : bytes) (w : World) :
  currentP2PService ctx render = Some s ->
  p2pReceivingFileMeta render = Some m ->
  p2pReceivingFileMeta (state w) = None ->
  exists w',
    commonP2POnDataHandler render (DArrayBuffer data) ctx w = Some (tt, w') /\
    p2pReceivedFileChunks (state w') = p2pReceivedFileChunks render ++ [data] /\
    p2pFileTransferProgress (state w') =
      Some {| tp_type := receive; tp_filename := meta_name m;
              tp_progress := percent (received (p2pReceivedFileChunks render ++ [data]))
                               (meta_size m) |} /\
    p2pReceiveTimeoutIdRef (refs w') = Some (Pos.succ (last_timer w)) /\
    timers w' !! Pos.succ (last_timer w) =
      Some (if (received (p2pReceivedFileChunks render ++ [data]) <? meta_size m)%Z
            then (P2P_RECEIVE_TIMEOUT_MS,
                  ReceiveTimeout (timed_out_chunks (meta_name m)) ctx)
            else ((P2P_RECEIVE_TIMEOUT_MS / 2)%Z,
                  ReceiveTimeout (timed_out_file_end (meta_name m)) ctx)) /\
    trace w' = trace w.
Proof.
  intros Hs Hm _. by apply (handle_chunk_with_descriptor render m data ctx s w).
Qed.

End ReceiverClaims.

(** ** Share orchestration *)

Section Share.

Lemma created_app tr1 tr2 : created (tr1 ++ tr2) = created tr1 ++ created tr2.
Proof. apply omap_app. Qed.

(** [executeShareAttempt] with an item and a room id: it throws at the
    call of [setShareFlowMessage] that follows [setShareFlowStep]. *)
Lemma attempt_throws w i roomId :
  blank roomId = false ->
  exists w1,
    executeShareAttempt (Some i) roomId w =
      Some (Throw "ReferenceError: setShareFlowMessage is not defined", w1) /\
    shareFlowStep (state w1) =
      (match i with ItemFile _ => p2p_attempt | ItemPointer _ => p2p_r2_pointer_attempt end) /\
    shareP2PServiceInstance (state w1) = shareP2PServiceInstance (state w) /\
    created (trace w1) = created (trace w) /\
    last_service w1 = last_service w /\
    timers w1 = cancel (shareP2PTimeoutIdRef (refs w)) (timers w) /\
    last_timer w1 = last_timer w.
Proof.
  destruct w as [c r tm lt ls tr]; destruct c, r; intros Hblank.
  run_share. rewrite Hblank.
  destruct i, shareP2PServiceInstance0, shareP2PTimeoutIdRef0; run_share;
    (eexists; split; [reflexivity|]; split_and!; try done;
     simpl; rewrite ?created_app; simpl; by rewrite ?app_nil_r).
Qed.

Lemma connect_timeout_keeps_step render service_ w :
  exists result w',
    connect_timeout render service_ w = Some (result, w') /\
    state w' = state w /\ trace w' = trace w.
Proof.
  destruct w as [c r tm lt ls tr]; destruct c, r.
  unfold connect_timeout. destruct (_ && _); run_share; by eexists _, _.
Qed.

Lemma share_onError_throws a err_message w :
  exists w',
    share_onError a err_message w =
      Some (Throw "ReferenceError: setShareFlowMessage is not defined", w') /\
    state w' = state w /\ trace w' = trace w.
Proof.
  destruct w as [c r tm lt ls tr]; destruct c, r. run_share.
  destruct shareP2PTimeoutIdRef0; by eexists.
Qed.

Lemma share_onClose_keeps_step a w :
  exists result w',
    share_onClose a w = Some (result, w') /\
    shareFlowStep (state w') = shareFlowStep (state w) /\ trace w' = trace w.
Proof.
  destruct w as [c r tm lt ls tr]; destruct c, r; destruct a as [render sv it rm].
  unfold share_onClose, attempt_render, service.
  destruct shareP2PTimeoutIdRef0, (shareFlowStep render),
    (is_instance sv (shareP2PServiceInstance render)); run_share; by eexists _, _.
Qed.

Lemma cleanup_cancels previous w id :
  shareP2PTimeoutIdRef (refs w) = Some id ->
  exists w', share_effect_cleanup previous w = Some (tt, w') /\ timers w' !! id = None.
Proof.
  destruct w as [c r tm lt ls tr]; destruct c, r. cbv [refs shareP2PTimeoutIdRef].
  intros ->. run_share.
  destruct previous, p2pReceiveTimeoutIdRef0, appMessageTimeoutRef0; run_share;
    (eexists; split; [reflexivity|]; not_pending).
Qed.

(** C5 does not hold of the component.  A share attempt for a pointer item
    into a room with a non-blank id sets the step to
    [p2p_r2_pointer_attempt] and then throws, at the call of the undeclared
    [setShareFlowMessage]: no transport is created and no connect timer is
    armed, so no deadline can expire.  None of the three handlers of a
    failure writes the step either: the callback of the connect timer,
    [onError] and [onClose] leave it as it is, whatever render they
    captured.  The step [share_failed] is not reached. *)
Theorem pointer_share_attempt_throws (metadata : FileMetadata) (roomId : string) (w : World) :
  blank roomId = false ->
  (exists w1,
     executeShareAttempt (Some (ItemPointer metadata)) roomId w =
       Some (Throw "ReferenceError: setShareFlowMessage is not defined", w1) /\
     shareFlowStep (state w1) = p2p_r2_pointer_attempt /\
     created (trace w1) = created (trace w) /\
     timers w1 = cancel (shareP2PTimeoutIdRef (refs w)) (timers w) /\
     last_timer w1 = last_timer w) /\
  (forall render service_ w0, exists result w',
     connect_timeout render service_ w0 = Some (result, w') /\
     shareFlowStep (state w') = shareFlowStep (state w0)) /\
  (forall attempt err_message w0, exists result w',
     share_onError attempt err_message w0 = Some (result, w') /\
     shareFlowStep (state w') = shareFlowStep (state w0)) /\
  (forall attempt w0, exists result w',
     share_onClose attempt w0 = Some (result, w') /\
     shareFlowStep (state w') = shareFlowStep (state w0)).
Proof.
  intros Hblank. split_and!.
  - destruct (attempt_throws w (ItemPointer metadata) roomId Hblank)
      as (w1 & Hrun & Hstep & _ & Hcreated & _ & Htimers & Hlast).
    by exists w1.
  - intros render service_ w0.
    destruct (connect_timeout_keeps_step render service_ w0) as (result & w' & Hrun & Hstate & _).
    exists result, w'. split; [done | by rewrite Hstate].
  - intros attempt err_message w0.
    destruct (share_onError_throws attempt err_message w0) as (w' & Hrun & Hstate & _).
    eexists _, w'. split; [exact Hrun | by rewrite Hstate].
  - intros attempt w0.
    destruct (share_onClose_keeps_step attempt w0) as (result & w' & Hrun & Hstep & _).
    by exists result, w'.
Qed.

End Share.

(** ** The statements at concrete inputs *)

Section Instances.

Example shouldCompress_examples :
  shouldCompress plain_file = true /\
  shouldCompress archive_file = false /\
  shouldCompress {| file_name := "backup.tar.gz"; file_type := "text/plain";
                    file_arrayBuffer := [] |} = false /\
  shouldCompress {| file_name := "photo.JPG"; file_type := "image/jpg";
                    file_arrayBuffer := [] |} = true.
Proof. by vm_compute. Qed.

Example slice_examples :
  ArrayBuffer_slice [Byte.x01; Byte.x02; Byte.x03] 1 (1 + 65536) = [Byte.x02; Byte.x03] /\
  ArrayBuffer_slice [Byte.x01; Byte.x02; Byte.x03] 3 (3 + 65536) = [] /\
  ArrayBuffer_slice [Byte.x01; Byte.x02; Byte.x03] (-2) 3 = [Byte.x02; Byte.x03].
Proof. by vm_compute. Qed.

(** A two-byte file is sent with the callbacks of [handleSendManualP2PFile]
    and its frames are handled by a first manual connection: nothing is
    handed to the browser and the receiving state holds no descriptor and no
    chunk. *)
Example first_connection_receives_nothing :
  match performP2PSendAndUpdateState (H := framing_codec) 1 plain_file
          (manual_onProgress plain_file) (manual_onComplete plain_file) manual_onError
          initial_world,
        startManualP2P false initial_world with
  | Some (_, sender'), Some (Some connection, receiver1) =>
      match receive_all (H := framing_codec) (conn_render connection)
              (sent (trace sender')) manual receiver1 with
      | Some (_, receiver') =>
          Some (length (sent (trace sender')), delivered (trace receiver'),
                p2pReceivingFileMeta (state receiver'), p2pReceivedFileChunks (state receiver'))
      | None => None
      end
  | _, _ => None
  end = Some (3, [], None, []).
Proof. by vm_compute. Qed.

Lemma manual_onProgress_quiet file progress stepMsg :
  quiet (manual_onProgress file progress stepMsg).
Proof.
  intros w. destruct w as [c r tm lt ls tr]; destruct c, r. unfold manual_onProgress.
  destruct stepMsg as [[|a m]|], (0 <=? progress)%Z, appMessageTimeoutRef0; run_timed;
    by eexists.
Qed.

Lemma manual_onComplete_quiet file : quiet (manual_onComplete file).
Proof.
  intros w. destruct w as [c r tm lt ls tr]; destruct c, r. unfold manual_onComplete.
  destruct appMessageTimeoutRef0; run_timed; by eexists.
Qed.

(** The witness of C1: a compressible two-byte file, sent with the manual
    callbacks, and a receiver that makes its first manual connection. *)
Lemma round_trip_delivers_nothing_witness :
  exists sender' connection receiver1 receiver' m chunks,
    performP2PSendAndUpdateState (H := framing_codec) 1 plain_file
      (manual_onProgress plain_file) (manual_onComplete plain_file) manual_onError
      initial_world = Some (tt, sender') /\
    sent (trace sender') = sent (trace initial_world) ++ transfer_frames m chunks /\
    meta_name m = file_name plain_file /\
    startManualP2P false initial_world = Some (Some connection, receiver1) /\
    receive_all (H := framing_codec) (conn_render connection) (transfer_frames m chunks)
      manual receiver1 = Some (tt, receiver') /\
    delivered (trace receiver') = delivered (trace initial_world).
Proof.
  apply (round_trip_delivers_nothing (H := framing_codec) 1 plain_file
           (manual_onProgress plain_file) (manual_onComplete plain_file) manual_onError
           initial_world initial_world false).
  - apply manual_onProgress_quiet.
  - apply manual_onComplete_quiet.
  - intros _. by eexists.
  - reflexivity.
  - reflexivity.
Defined.

(** The witness of C3: the first connection of the initial component. *)
Lemma first_connection_records_no_descriptor_witness :
  exists connection w1,
    startManualP2P true initial_world = Some (Some connection, w1) /\
    manualP2PService (state w1) = Some (conn_service connection) /\
    p2pReceivingFileMeta (state w1) = None /\
    forall frames,
      receive_all (H := framing_codec) (conn_render connection) frames manual w1
        = Some (tt, w1).
Proof.
  apply (first_connection_records_no_descriptor (H := framing_codec) true initial_world);
    reflexivity.
Defined.

(** The witness of C4: 200,000 zero bytes declared as [application/zip]. *)
Lemma send_200000_bytes_witness :
  file_type archive_file ∈ alreadyCompressedTypes /\
  byteLength (file_arrayBuffer archive_file) = 200000%Z /\
  byteLength <$> [chunk_at (file_arrayBuffer archive_file) 0;
                  chunk_at (file_arrayBuffer archive_file) 65536;
                  chunk_at (file_arrayBuffer archive_file) 131072;
                  chunk_at (file_arrayBuffer archive_file) 196608]
    = [65536; 65536; 65536; 3392]%Z.
Proof.
  assert (Htype : file_type archive_file ∈ alreadyCompressedTypes)
    by (apply includes_spec; reflexivity).
  assert (Hsize : byteLength (file_arrayBuffer archive_file) = 200000%Z)
    by (vm_compute; reflexivity).
  split_and!; [exact Htype | exact Hsize |].
  exact (proj1 (send_200000_bytes (H := framing_codec) 1 archive_file
                  (manual_onProgress archive_file) (manual_onComplete archive_file)
                  manual_onError Htype Hsize)).
Defined.

(** The witness of C5: a stored file shared into the room [room]. *)
Lemma pointer_share_attempt_throws_witness :
  exists w1,
    executeShareAttempt (Some (ItemPointer stored_file)) "room" sharing_world =
      Some (Throw "ReferenceError: setShareFlowMessage is not defined", w1) /\
    shareFlowStep (state w1) = p2p_r2_pointer_attempt /\
    created (trace w1) = [] /\
    timers w1 = ∅.
Proof.
  destruct (pointer_share_attempt_throws stored_file "room" sharing_world eq_refl)
    as [(w1 & Hrun & Hstep & Hcreated & Htimers & _) _].
  exists w1. split_and!; [exact Hrun | exact Hstep | exact Hcreated | exact Htimers].
Defined.

(** The witness of C10: a chunk on the third connection of
    [third_connection], made from a render that held the descriptor of
    [notes.txt] while the state holds none. *)
Lemma stale_descriptor_takes_chunk_witness :
  exists third w3 w',
    third_connection = Some (third, w3) /\
    p2pReceivingFileMeta (state w3) = None /\
    commonP2POnDataHandler (H := framing_codec) (conn_render third)
      (DArrayBuffer [Byte.x68; Byte.x69]) manual w3 = Some (tt, w') /\
    p2pReceivedFileChunks (state w') = [[Byte.x68; Byte.x69]] /\
    p2pFileTransferProgress (state w') =
      Some {| tp_type := receive; tp_filename := "notes.txt"; tp_progress := 100 |} /\
    trace w' = trace w3.
Proof.
  assert (exists third w3,
            third_connection = Some (third, w3) /\
            currentP2PService manual (conn_render third) = Some 2 /\
            p2pReceivingFileMeta (conn_render third) = Some plain_meta /\
            p2pReceivedFileChunks (conn_render third) = [] /\
            p2pReceivingFileMeta (state w3) = None)
    as (third & w3 & Hthird & Hs & Hm & Hchunks & Hidle).
  { vm_compute. eexists _, _. split_and!; reflexivity. }
  destruct (stale_descriptor_takes_chunk (H := framing_codec) (conn_render third) manual 2
              plain_meta [Byte.x68; Byte.x69] w3 Hs Hm Hidle)
    as (w' & Hrun & Hchunks' & Hprogress & _ & _ & Htrace).
  exists third, w3, w'. rewrite Hchunks in Hchunks', Hprogress.
  split_and!; [exact Hthird | exact Hidle | exact Hrun | exact Hchunks' | exact Hprogress
              | exact Htrace].
Defined.

End Instances.

(** * Further properties *)

(** ** The relay: the session list *)

Section RelaySessions.
Import SignalingRoom.

(** The sessions of a room are distinct sockets the room has numbered. *)
Lemma fetch_keeps_sessions_distinct request room :
  NoDup (sessions room) -> Forall (fun s => s < next_socket room) (sessions room) ->
  NoDup (sessions (fetch request room).2) /\
  Forall (fun s => s < next_socket (fetch request room).2) (sessions (fetch request room).2).
Proof.
  intros Hnd Hlt. unfold fetch. destruct (not_websocket_upgrade request); simpl; [done|].
  split.
  - apply NoDup_app. split_and!; [done | | apply NoDup_singleton].
    intros s Hs ->%list_elem_of_singleton.
    rewrite Forall_forall in Hlt. specialize (Hlt _ Hs). lia.
  - apply Forall_app. split; [|by repeat constructor].
    eapply Forall_impl; [exact Hlt | intros s ?; simpl in *; lia].
Qed.

Lemma close_keeps_sessions_distinct server room :
  NoDup (sessions room) -> Forall (fun s => s < next_socket room) (sessions room) ->
  NoDup (sessions (closeOrErrorHandler server room)) /\
  Forall (fun s => s < next_socket (closeOrErrorHandler server room))
    (sessions (closeOrErrorHandler server room)).
Proof.
  intros Hnd Hlt. unfold closeOrErrorHandler; simpl. split.
  - by apply NoDup_filter.
  - rewrite Forall_forall in *. intros s [_ Hs]%list_elem_of_filter. by apply Hlt.
Qed.

(** X1. Starting from the constructor's empty list, whatever requests,
    closes and errors a room handles, its sessions stay pairwise distinct:
    no socket is registered twice. *)
Theorem sessions_stay_distinct (events : list (Request + nat)) :
  NoDup (sessions (fold_left (fun room event =>
                                match event with
                                | inl request => (fetch request room).2
                                | inr server => closeOrErrorHandler server room
                                end) events new_Room)).
Proof.
  assert (Hinv : forall room,
    NoDup (sessions room) /\ Forall (fun s => s < next_socket room) (sessions room) ->
    NoDup (sessions (fold_left (fun room event =>
                                  match event with
                                  | inl request => (fetch request room).2
                                  | inr server => closeOrErrorHandler server room
                                  end) events room))).
  { induction events as [|[request|server] events IH]; intros room [Hnd Hlt]; simpl.
    - done.
    - apply IH. by apply fetch_keeps_sessions_distinct.
    - apply IH. by apply close_keeps_sessions_distinct. }
  apply Hinv. split; [apply NoDup_nil_2 | constructor].
Qed.

Lemma elem_of_sessions_close server room s :
  s ∈ sessions (closeOrErrorHandler server room) <-> s ∈ sessions room /\ s <> server.
Proof. unfold closeOrErrorHandler; simpl. rewrite list_elem_of_filter. tauto. Qed.

(** X2. Once the close or error handler of a session has run, a message
    from any session causes no [send] to the closed session and no error
    logged about it, while every other session is served exactly as
    before: the fan-out over the remaining list is the earlier fan-out, in
    the same order, without the entries of the closed session. *)
Theorem closed_session_is_skipped (env : Sockets) (closed sender : nat)
    (messageData : string) (room : Room) :
  on_message env sender messageData (closeOrErrorHandler closed room) =
    List.filter (fun e => match e with
                          | Send s _ | ConsoleError s => negb (Nat.eqb s closed)
                          | ConsoleLog _ => true
                          end)
      (on_message env sender messageData room).
Proof.
  unfold on_message, closeOrErrorHandler; simpl.
  induction (sessions room) as [|s l IH]; [done|].
  simpl. rewrite List.filter_app, <- IH. clear IH.
  destruct (decide (s = closed)) as [->|Hne].
  - rewrite filter_cons_False by (intros ?; congruence).
    replace (List.filter _ (deliver env sender messageData closed)) with (@nil Effect); [done|].
    unfold deliver. destruct (_ && _); [|done].
    destruct (send_throws (env closed)); simpl; by rewrite Nat.eqb_refl.
  - rewrite filter_cons_True by done. simpl. f_equal.
    apply Nat.eqb_neq in Hne.
    unfold deliver. destruct (_ && _); [|done].
    destruct (send_throws (env s)); simpl; by rewrite Hne.
Qed.

(** X3. A session that joins a room whose sessions are sockets the room has
    numbered, and then closes, leaves the session list as it was before it
    joined. *)
Theorem join_then_close_restores (request : Request) (room : Room) :
  not_websocket_upgrade request = false ->
  Forall (fun s => s < next_socket room) (sessions room) ->
  exists server,
    webSocket (fetch request room).1 = Some server /\
    sessions (closeOrErrorHandler server (fetch request room).2) = sessions room.
Proof.
  intros Hup Hlt. exists (next_socket room). unfold fetch. rewrite Hup. simpl.
  split; [done|]. rewrite filter_app.
  rewrite filter_cons_False, filter_nil, app_nil_r by (intros ?; congruence).
  induction Hlt as [|s l Hs Hl IH]; [done|].
  rewrite filter_cons_True by lia. by rewrite IH.
Qed.

Lemma join_then_close_restores_witness :
  exists server,
    webSocket (fetch {| header_Upgrade := Some "websocket"; path := ["ws"; "signaling"; "room"] |}
                 {| sessions := [0; 1]; next_socket := 2 |}).1 = Some server /\
    sessions (closeOrErrorHandler server
                (fetch {| header_Upgrade := Some "websocket"; path := ["ws"; "signaling"; "room"] |}
                   {| sessions := [0; 1]; next_socket := 2 |}).2) = [0; 1].
Proof.
  apply (join_then_close_restores
           {| header_Upgrade := Some "websocket"; path := ["ws"; "signaling"; "room"] |}
           {| sessions := [0; 1]; next_socket := 2 |}).
  - reflexivity.
  - repeat constructor.
Defined.

End RelaySessions.

(** ** The storage routes *)

Section StorageRoutes.
Import Api.




(** X5. finalize-upload stores nothing unless it answers 201: a body the
    parser rejects or a throwing [put] gives 500, a body with a missing or
    empty name or content type, a size that is no number or a flag that is
    no boolean gives 400, and in each of these cases the store is left as it
    was. *)
Theorem finalize_upload_rejects (now : Z) (request : option FinalizeBody)
    (put_throws : bool) (store : Store) :
  let response := (finalize_upload now request put_throws store).1 in
  let store' := (finalize_upload now request put_throws store).2 in
  (status response = 201%Z \/ status response = 400%Z \/ status response = 500%Z) /\
  (status response <> 201%Z -> store' = store) /\
  (forall b, request = Some b ->
     (truthy (finalize_filename b) = None \/ truthy (finalize_contentType b) = None \/
      finalize_size b = None \/ finalize_isCompressed b = None) ->
     status response = 400%Z) /\
  (status response = 201%Z -> put_throws = false).
Proof.
  unfold finalize_upload. destruct request as [b|]; simpl.
  2: { split_and!; [auto | done | done | discriminate]. }
  destruct (truthy (finalize_filename b)) eqn:Hn, (truthy (finalize_contentType b)) eqn:Ht,
    (finalize_size b) eqn:Hs, (finalize_isCompressed b) eqn:Hc, put_throws; simpl;
    (split_and!;
       [ auto
       | intros Hst; first [ reflexivity | by destruct Hst ]
       | intros b' [= <-] [?|[?|[?|?]]]; first [ reflexivity | congruence ]
       | intros Hst; first [ reflexivity | discriminate Hst ] ]).
Qed.

(** X6. Deleting a file by a non-empty name, when both deletes succeed,
    answers 200; afterwards a request-download for it answers 404 and the
    bucket holds no object of that name, while every other record and
    object is as before. *)
Theorem delete_then_request_download (name : string) (store : Store) :
  name <> EmptyString ->
  let response := (delete_file name false false store).1 in
  let store' := (delete_file name false false store).2 in
  status response = 200%Z /\
  status (request_download name false false store') = 404%Z /\
  (name ∉ YOUR_R2_BUCKET store') /\
  (forall other, other <> name ->
     FILE_METADATA_KV store' !! other = FILE_METADATA_KV store !! other /\
     (other ∈ YOUR_R2_BUCKET store' <-> other ∈ YOUR_R2_BUCKET store)).
Proof.
  intros Hne. destruct name as [|c s]; [done|]. simpl. split_and!.
  - done.
  - by rewrite lookup_delete_eq.
  - rewrite elem_of_difference, elem_of_singleton. by intros [_ ?].
  - intros other Ho. rewrite lookup_delete_ne by done. split; [done|].
    rewrite elem_of_difference, elem_of_singleton. tauto.
Qed.

Lemma delete_then_request_download_witness :
  status (request_download "a.txt" false false
            (delete_file "a.txt" false false
               {| FILE_METADATA_KV := {[ "a.txt" := NotJson "x" ]};
                  YOUR_R2_BUCKET := {[ "a.txt" ]} |}).2) = 404%Z.
Proof.
  apply (delete_then_request_download "a.txt"
           {| FILE_METADATA_KV := {[ "a.txt" := NotJson "x" ]};
              YOUR_R2_BUCKET := {[ "a.txt" ]} |}).
  discriminate.
Defined.



End StorageRoutes.
(** ** The retention sweep *)

Section Sweep.
Import Api.
Variable now : Z.
Variables get_throws r2_delete_throws kv_delete_throws : string -> bool.

Local Abbreviation sweep_key' := (sweep_key now get_throws r2_delete_throws kv_delete_throws).
Local Abbreviation scheduled' := (scheduled now get_throws r2_delete_throws kv_delete_throws).
Local Abbreviation deletes_object' := (deletes_object now get_throws r2_delete_throws).
Local Abbreviation removes' := (removes now get_throws r2_delete_throws kv_delete_throws).
Local Abbreviation counts_as_error' :=
  (counts_as_error now get_throws r2_delete_throws kv_delete_throws).
Local Abbreviation sweep := (fold_left (fun state key => sweep_key' key state)).

(** What one turn of the loop does, by the predicates. *)
Lemma sweep_key_cases key store counts :
  sweep_key' key (store, counts) =
    match deletes_object' store key with
    | Some name =>
        if kv_delete_throws key
        then ({| FILE_METADATA_KV := FILE_METADATA_KV store;
                 YOUR_R2_BUCKET := YOUR_R2_BUCKET store ∖ {[name]} |},
              count_error counts)
        else ({| FILE_METADATA_KV := delete key (FILE_METADATA_KV store);
                 YOUR_R2_BUCKET := YOUR_R2_BUCKET store ∖ {[name]} |},
              count_deleted counts)
    | None => (store, if counts_as_error' store key then count_error counts else counts)
    end.
Proof.
  unfold sweep_key, deletes_object, expired, counts_as_error.
  destruct (get_throws key); [done|]. simpl.
  destruct (FILE_METADATA_KV store !! key) as [[[|c raw]|[metadata|]]|]; try done.
  destruct (uploadedAt metadata); try done.
  destruct (_ <? _)%Z; [|done]. simpl.
  by destruct (r2_delete_throws _).
Qed.

Lemma sweep_key_lookup key store counts k :
  FILE_METADATA_KV (sweep_key' key (store, counts)).1 !! k =
    if decide (k = key) then
      if removes' store key then None else FILE_METADATA_KV store !! key
    else FILE_METADATA_KV store !! k.
Proof.
  rewrite sweep_key_cases. unfold removes.
  destruct (deletes_object' store key) as [name|]; simpl.
  - destruct (kv_delete_throws key); simpl.
    + by case_decide; subst.
    + case_decide; subst; [apply lookup_delete_eq | by apply lookup_delete_ne].
  - by case_decide; subst.
Qed.

(** A turn of the loop changes what the predicates say of no other key. *)
Lemma predicates_after key store counts k :
  k <> key ->
  deletes_object' (sweep_key' key (store, counts)).1 k = deletes_object' store k /\
  removes' (sweep_key' key (store, counts)).1 k = removes' store k /\
  counts_as_error' (sweep_key' key (store, counts)).1 k = counts_as_error' store k.
Proof.
  intros Hne. unfold removes, deletes_object, counts_as_error.
  rewrite sweep_key_lookup. by rewrite decide_False.
Qed.

Lemma sweep_lookup keys : forall store counts k,
  NoDup keys ->
  FILE_METADATA_KV (sweep keys (store, counts)).1 !! k =
    if bool_decide (k ∈ keys) && removes' store k then None
    else FILE_METADATA_KV store !! k.
Proof.
  induction keys as [|key keys IH]; intros store counts k Hnd; [done|].
  apply NoDup_cons in Hnd as [Hnotin Hnd]. cbn [fold_left].
  pose proof (sweep_key_lookup key store counts k) as Hk.
  pose proof (fun Hne => predicates_after key store counts k Hne) as Hafter.
  destruct (sweep_key' key (store, counts)) as [store1 counts1].
  rewrite IH by done. simpl in Hk, Hafter.
  destruct (decide (k = key)) as [->|Hne].
  - rewrite (bool_decide_eq_false_2 (key ∈ keys)) by done.
    rewrite bool_decide_eq_true_2 by (by left). simpl.
    rewrite Hk. by destruct (removes' store key).
  - destruct (Hafter Hne) as (_ & Hr & _). rewrite Hr, Hk.
    replace (bool_decide (k ∈ key :: keys)) with (bool_decide (k ∈ keys)); [done|].
    apply bool_decide_ext. rewrite elem_of_cons. split; [auto | by intros [?|?]].
Qed.

Lemma scheduled_lookup keys store k :
  NoDup keys ->
  FILE_METADATA_KV (scheduled' (Ok keys) store).1 !! k =
    if bool_decide (k ∈ keys) && removes' store k then None
    else FILE_METADATA_KV store !! k.
Proof.
  intros Hnd. unfold scheduled.
  pose proof (sweep_lookup keys store {| deletedCount := 0; errorCount := 0 |} k Hnd) as Hk.
  by destruct (sweep keys (store, _)) as [s c].
Qed.

Lemma sweep_key_bucket key store counts n :
  n ∈ YOUR_R2_BUCKET (sweep_key' key (store, counts)).1 <->
  n ∈ YOUR_R2_BUCKET store /\ deletes_object' store key <> Some n.
Proof.
  rewrite sweep_key_cases.
  destruct (deletes_object' store key) as [name|]; simpl.
  - assert (n ∈ YOUR_R2_BUCKET store ∖ {[name]} <->
            n ∈ YOUR_R2_BUCKET store /\ Some name <> Some n) as Hiff.
    { rewrite elem_of_difference, elem_of_singleton.
      split; (intros [? Hne]; split; [done|]); [intros [= ->] | intros ->]; by apply Hne. }
    by destruct (kv_delete_throws key).
  - split; [by intros ? | by intros [? _]].
Qed.

Lemma sweep_bucket keys : forall store counts n,
  NoDup keys ->
  n ∈ YOUR_R2_BUCKET (sweep keys (store, counts)).1 <->
  n ∈ YOUR_R2_BUCKET store /\
  forall key, key ∈ keys -> deletes_object' store key <> Some n.
Proof.
  induction keys as [|key keys IH]; intros store counts n Hnd.
  - simpl. split; [intros ?; split; [done|]; by intros ? ?%elem_of_nil | by intros [? _]].
  - apply NoDup_cons in Hnd as [Hnotin Hnd]. cbn [fold_left].
    pose proof (sweep_key_bucket key store counts n) as Hb.
    pose proof (fun k Hne => predicates_after key store counts k Hne) as Hafter.
    destruct (sweep_key' key (store, counts)) as [store1 counts1].
    rewrite (IH store1 counts1 n Hnd). simpl in Hb, Hafter. rewrite Hb. split.
    + intros [[Hin Hkey] Hrest]. split; [done|].
      intros k [->|Hk]%elem_of_cons; [done|].
      destruct (Hafter k) as (<- & _); [by intros -> | by apply Hrest].
    + intros [Hin Hall]. split_and!; [done | apply Hall; by left |].
      intros k Hk. destruct (Hafter k) as (-> & _); [by intros -> |].
      apply Hall. by right.
Qed.

Lemma scheduled_bucket keys store n :
  NoDup keys ->
  n ∈ YOUR_R2_BUCKET (scheduled' (Ok keys) store).1 <->
  n ∈ YOUR_R2_BUCKET store /\
  forall key, key ∈ keys -> deletes_object' store key <> Some n.
Proof.
  intros Hnd. unfold scheduled.
  pose proof (sweep_bucket keys store {| deletedCount := 0; errorCount := 0 |} n Hnd) as Hk.
  by destruct (sweep keys (store, _)) as [s c].
Qed.

Lemma sweep_key_counts key store counts :
  deletedCount (sweep_key' key (store, counts)).2 =
    deletedCount counts + (if removes' store key then 1 else 0) /\
  errorCount (sweep_key' key (store, counts)).2 =
    errorCount counts + (if counts_as_error' store key then 1 else 0).
Proof.
  unfold sweep_key, removes, deletes_object, counts_as_error, expired.
  destruct (get_throws key); simpl; [lia|].
  destruct (FILE_METADATA_KV store !! key) as [[[|c raw]|[metadata|]]|]; simpl; try lia.
  destruct (uploadedAt metadata); simpl; try lia.
  destruct (_ <? _)%Z; simpl; [|lia].
  destruct (r2_delete_throws (fileToDelete key metadata)); simpl; [lia|].
  destruct (kv_delete_throws key); simpl; lia.
Qed.

Lemma sweep_counts keys : forall store counts,
  NoDup keys ->
  deletedCount (sweep keys (store, counts)).2 =
    deletedCount counts + length (List.filter (removes' store) keys) /\
  errorCount (sweep keys (store, counts)).2 =
    errorCount counts + length (List.filter (counts_as_error' store) keys).
Proof.
  induction keys as [|key keys IH]; intros store counts Hnd; [simpl; lia|].
  apply NoDup_cons in Hnd as [Hnotin Hnd]. cbn [fold_left List.filter].
  pose proof (fun k Hne => predicates_after key store counts k Hne) as Hafter.
  pose proof (sweep_key_counts key store counts) as [Hd1 He1].
  destruct (sweep_key' key (store, counts)) as [store1 counts1].
  destruct (IH store1 counts1 Hnd) as [Hd He]. rewrite Hd, He. simpl in *.
  assert (Hsame : forall f g : string -> bool,
            (forall k, k ∈ keys -> f k = g k) -> List.filter f keys = List.filter g keys).
  { intros f g Hfg. apply List.filter_ext_in. intros k Hk. apply Hfg. by apply list_elem_of_In. }
  rewrite (Hsame (removes' store1) (removes' store))
    by (intros k Hk; apply (Hafter k); intros ->; done).
  rewrite (Hsame (counts_as_error' store1) (counts_as_error' store))
    by (intros k Hk; apply (Hafter k); intros ->; done).
  rewrite Hd1, He1.
  destruct (removes' store key), (counts_as_error' store key); simpl; lia.
Qed.

(** X8. After a sweep over the distinct listed keys, a record is gone
    exactly when its key was listed, reading it did not throw, it parses to
    an object whose [uploadedAt] reads as a date more than seven days
    (604800000 ms) before the sweep, and neither deletion threw; every
    other record, listed or not, is unchanged.  A record exactly seven days
    old is kept, and so is one that does not parse or has no readable
    date. *)
Theorem sweep_retention (keys : list string) (store : Store) (k : string) :
  NoDup keys ->
  let store' := (scheduled now get_throws r2_delete_throws kv_delete_throws (Ok keys) store).1 in
  FILE_METADATA_KV store' !! k =
    (if bool_decide (k ∈ keys) &&
        removes now get_throws r2_delete_throws kv_delete_throws store k
     then None else FILE_METADATA_KV store !! k) /\
  (forall metadata uploaded,
     FILE_METADATA_KV store !! k = Some (Json (Some metadata)) ->
     uploadedAt metadata = ValidDate uploaded ->
     (now - uploaded <= 604800000)%Z ->
     FILE_METADATA_KV store' !! k = Some (Json (Some metadata))) /\
  (forall metadata,
     FILE_METADATA_KV store !! k = Some (Json (Some metadata)) ->
     (forall uploaded, uploadedAt metadata <> ValidDate uploaded) ->
     FILE_METADATA_KV store' !! k = Some (Json (Some metadata))) /\
  (forall raw, FILE_METADATA_KV store !! k = Some (NotJson raw) ->
               FILE_METADATA_KV store' !! k = Some (NotJson raw)).
Proof.
  intros Hnd store'.
  pose proof (scheduled_lookup keys store k Hnd) as Hlookup. fold store' in Hlookup.
  split_and!; [exact Hlookup | ..].
  - intros metadata uploaded Hrec Hdate Hage. rewrite Hlookup.
    unfold removes, deletes_object, expired. rewrite Hrec, Hdate.
    replace (TTL_PERIOD_MS <? now - uploaded)%Z with false
      by (unfold TTL_PERIOD_MS, TTL_PERIOD_DAYS; lia).
    destruct (get_throws k); by rewrite andb_false_r.
  - intros metadata Hrec Hdate. rewrite Hlookup.
    unfold removes, deletes_object, expired. rewrite Hrec.
    destruct (uploadedAt metadata) eqn:Hu; [| |by destruct (Hdate time)];
      destruct (get_throws k); by rewrite andb_false_r.
  - intros raw Hrec. rewrite Hlookup. unfold removes, deletes_object, expired. rewrite Hrec.
    destruct (get_throws k); by rewrite andb_false_r.
Qed.

(** X9. The counters of a sweep over the distinct listed keys: every key is
    checked; [deletedCount] is the number of listed keys whose record was
    removed; [errorCount] is the number of listed keys whose record could
    not be read, does not parse, has no readable upload date, or was past
    its retention while one of its two deletions threw.  A throw on one key
    stops neither the loop nor the removal of the others. *)
Theorem sweep_reports (keys : list string) (store : Store) :
  NoDup keys ->
  exists counts,
    (scheduled now get_throws r2_delete_throws kv_delete_throws (Ok keys) store).2 =
      Some (length keys, counts) /\
    deletedCount counts =
      length (List.filter (removes now get_throws r2_delete_throws kv_delete_throws store) keys) /\
    errorCount counts =
      length (List.filter
                (counts_as_error now get_throws r2_delete_throws kv_delete_throws store) keys).
Proof.
  intros Hnd. unfold scheduled.
  pose proof (sweep_counts keys store {| deletedCount := 0; errorCount := 0 |} Hnd) as [Hd He].
  destruct (sweep keys (store, _)) as [s c]. by exists c.
Qed.


(** X11. A file finalized at time [uploaded]: a sweep run no more than
    seven days later keeps its record, whatever keys are listed and
    whatever throws; a sweep run more than seven days later that lists its
    name removes the record and deletes the object of that name, when none
    of the three calls for that name throws. *)
Theorem finalized_file_retention (uploaded : Z) (b : FinalizeBody) (store : Store)
    (name type_ : string) (size_ : Z) (compressed : bool) (keys : list string) :
  truthy (finalize_filename b) = Some name ->
  truthy (finalize_contentType b) = Some type_ ->
  finalize_size b = Some size_ ->
  finalize_isCompressed b = Some compressed ->
  NoDup keys ->
  let stored := (finalize_upload uploaded (Some b) false store).2 in
  let swept :=
    (scheduled now get_throws r2_delete_throws kv_delete_throws (Ok keys) stored).1 in
  ((now - uploaded <= 604800000)%Z ->
     FILE_METADATA_KV swept !! name = FILE_METADATA_KV stored !! name /\
     is_Some (FILE_METADATA_KV swept !! name)) /\
  ((604800000 < now - uploaded)%Z -> name ∈ keys ->
   get_throws name = false -> r2_delete_throws name = false ->
   kv_delete_throws name = false ->
     FILE_METADATA_KV swept !! name = None /\ name ∉ YOUR_R2_BUCKET swept).
Proof.
  intros Hname Htype Hsize Hflag Hnd stored swept.
  set (metadata := {| filename := Some name; uploadedAt := ValidDate uploaded;
                      contentType := Some type_; size := Some size_;
                      isCompressed := Some compressed |}).
  assert (Hstored : FILE_METADATA_KV stored !! name = Some (Json (Some metadata))).
  { subst stored. unfold finalize_upload. rewrite Hname, Htype, Hsize, Hflag. simpl.
    apply lookup_insert_eq. }
  pose proof (scheduled_lookup keys stored name Hnd) as Hlookup. fold swept in Hlookup.
  assert (Hfile : fileToDelete name metadata = name).
  { unfold fileToDelete. simpl. destruct name; [|done]. by destruct (finalize_filename b) as [[|]|]. }
  split.
  - intros Hage. rewrite Hlookup. unfold removes, deletes_object, expired.
    rewrite Hstored. simpl.
    replace (TTL_PERIOD_MS <? now - uploaded)%Z with false
      by (unfold TTL_PERIOD_MS, TTL_PERIOD_DAYS; lia).
    destruct (get_throws name); rewrite andb_false_r; by split.
  - intros Hage Hlisted Hget Hr2 Hkv.
    assert (Hdel : deletes_object' stored name = Some name).
    { unfold deletes_object, expired. rewrite Hget, Hstored. simpl.
      replace (TTL_PERIOD_MS <? now - uploaded)%Z with true
        by (unfold TTL_PERIOD_MS, TTL_PERIOD_DAYS; lia).
      by rewrite Hfile, Hr2. }
    split.
    + rewrite Hlookup. unfold removes. rewrite Hdel, Hkv.
      by rewrite bool_decide_eq_true_2.
    + subst swept. rewrite scheduled_bucket by done. intros [_ Hall].
      by apply (Hall name Hlisted).
Qed.

End Sweep.

Section SweepInstances.
Import Api.

Lemma example_keys_distinct : NoDup example_keys.
Proof. apply (bool_decide_unpack _). by vm_compute. Qed.

Lemma sweep_retention_witness :
  FILE_METADATA_KV
    (scheduled 700000000 never_throws never_throws never_throws (Ok example_keys)
       example_store).1 !! "bad" = Some (NotJson "{").
Proof.
  refine (proj2 (proj2 (proj2
            (sweep_retention 700000000 never_throws never_throws never_throws
               example_keys example_store "bad" _))) "{" _).
  - exact example_keys_distinct.
  - by vm_compute.
Defined.

Lemma sweep_reports_witness :
  exists counts,
    (scheduled 700000000 never_throws never_throws never_throws (Ok example_keys)
       example_store).2 = Some (2, counts) /\
    deletedCount counts = 1 /\ errorCount counts = 1.
Proof.
  destruct (sweep_reports 700000000 never_throws never_throws never_throws
              example_keys example_store) as (counts & H1 & H2 & H3).
  - exact example_keys_distinct.
  - exists counts. split_and!; [exact H1 | by rewrite H2 | by rewrite H3].
Defined.


Lemma finalized_file_retention_witness :
  FILE_METADATA_KV
    (scheduled 700000000 never_throws never_throws never_throws (Ok ["a.txt"])
       (finalize_upload 0 (Some example_upload) false
          {| FILE_METADATA_KV := ∅; YOUR_R2_BUCKET := {[ "a.txt" ]} |}).2).1 !! "a.txt" = None.
Proof.
  destruct (finalized_file_retention 700000000 never_throws never_throws never_throws 0
              example_upload {| FILE_METADATA_KV := ∅; YOUR_R2_BUCKET := {[ "a.txt" ]} |}
              "a.txt" "text/plain" 5 true ["a.txt"]
              eq_refl eq_refl eq_refl eq_refl (NoDup_singleton _)) as [_ H].
  destruct H as [H _]; [lia | by left | reflexivity | reflexivity | reflexivity | exact H].
Defined.

End SweepInstances.
(** ** The peer transport: sending *)

Section TransportUse.
Import P2PService.

(** X12. [send] never throws and never changes the two references: it
    hands the data to the peer once when a peer is held and reports itself
    connected, and otherwise only warns on the console. *)
Theorem send_delivers_or_warns (connected : nat -> bool) (data : string)
    (f : Fields) (tr : list Effect) :
  exists e,
    send connected data (f, tr) = Ok (tt, (f, tr ++ [e])) /\
    (forall p, e = PeerSend p data <-> peer f = Some p /\ connected p = true) /\
    (e = ConsoleWarn "P2PService: Cannot send data, peer not connected." <->
     forall p, peer f = Some p -> connected p = false).
Proof.
  destruct f as [[p|] w]; cbv [send mbind Method_bind get_peer call emit peer].
  - destruct (connected p) eqn:Hc; eexists; (split; [reflexivity|]); split.
    + intros q. split; [by intros [= <-] | by intros [[= <-] _]].
    + split; [discriminate | intros Hall; specialize (Hall p eq_refl); congruence].
    + intros q. split; [discriminate | intros [[= <-] ?]; congruence].
    + split; [by intros _ q [= <-] | done].
  - eexists. split; [reflexivity|]. split.
    + intros q. split; [discriminate | by intros [? _]].
    + split; [by intros _ q ? | done].
Qed.

(** X13. Use after [destroy()]: from any fields, once [destroy] has
    returned, [send] makes no call on a peer and only warns, and [signal]
    does nothing at all; neither throws. *)
Theorem use_after_destroy (connected : nat -> bool) (data : string)
    (f : Fields) (tr : list Effect) :
  exists tr1,
    destroy (f, tr) = Ok (tt, (released, tr1)) /\
    send connected data (released, tr1) =
      Ok (tt, (released,
               tr1 ++ [ConsoleWarn "P2PService: Cannot send data, peer not connected."])) /\
    signal data (released, tr1) = Ok (tt, (released, tr1)).
Proof. eexists. split; [apply destroy_eq|]. by split. Qed.

End TransportUse.

(** ** The sender: chunk layout and failure *)

Section SenderEdges.
Context `{Pako}.

(** The frames around the chunk loop, for a progress callback that sends
    nothing: the sender ends by calling [onComplete], with the frames
    sent. *)
Lemma perform_reaches_complete service_ file onProgress onComplete onError payload frames w :
  (forall progress stepMessage, quiet (onProgress progress stepMessage)) ->
  (if shouldCompress file then deflate (file_arrayBuffer file) = Ok payload
   else payload = file_arrayBuffer file) ->
  (forall w6, exists w7,
     send_chunks (length payload) service_ (file_name file) payload (byteLength payload)
       onProgress 0%Z w6 = Some (tt, w7) /\
     sent (trace w7) = sent (trace w6) ++ frames) ->
  exists w8,
    performP2PSendAndUpdateState service_ file onProgress onComplete onError w = onComplete w8 /\
    sent (trace w8) = sent (trace w) ++
      [DJson (file_meta (Some {| meta_name := file_name file; meta_size := byteLength payload;
                                 meta_type := originalFileType file;
                                 meta_isCompressed := shouldCompress file |}))]
      ++ frames ++ [DJson (file_end (Some (file_name file)))].
Proof.
  intros HonP Hpayload Hloop. unfold performP2PSendAndUpdateState.
  destruct (set_quiet (with_p2pFileTransferProgress
              (Some {| tp_type := send; tp_filename := file_name file; tp_progress := 0 |})) w)
    as (w1 & Hrun1 & Htr1).
  rewrite (bind_run _ _ _ _ _ Hrun1).
  destruct (HonP 0%Z (Some ("Preparing to send " +:+ file_name file +:+ " via P2P...")) w1)
    as (w2 & Hrun2 & Htr2).
  rewrite (bind_run _ _ _ _ _ Hrun2).
  assert (exists w3,
    (if shouldCompress file
     then onProgress (-1)%Z (Some ("Compressing " +:+ file_name file +:+ "...")) ;;
          mret (match deflate (file_arrayBuffer file) with
                | Ok compressed => Ok (compressed, true)
                | Throw e => Throw e
                end)
     else mret (Ok (file_arrayBuffer file, false))) w2
    = Some (Ok (payload, shouldCompress file), w3) /\ sent (trace w3) = sent (trace w2))
    as (w3 & Hrun3 & Htr3).
  { destruct (shouldCompress file).
    - destruct (HonP (-1)%Z (Some ("Compressing " +:+ file_name file +:+ "...")) w2)
        as (w3 & Hrun3 & Htr3).
      exists w3. rewrite (bind_run _ _ _ _ _ Hrun3), Hpayload. by split.
    - exists w2. by rewrite Hpayload. }
  rewrite (bind_run _ _ _ _ _ Hrun3). cbv beta iota.
  set (m := {| meta_name := file_name file; meta_size := byteLength payload;
               meta_type := originalFileType file; meta_isCompressed := shouldCompress file |}).
  destruct (emit_run (ServiceSend service_ (DJson (file_meta (Some m)))) w3)
    as (w4 & Hrun4 & _ & _ & _ & Htr4).
  rewrite (bind_run _ _ _ _ _ Hrun4).
  destruct (HonP 0%Z (Some ("Sending metadata for " +:+ file_name file +:+ "...")) w4)
    as (w5 & Hrun5 & Htr5).
  rewrite (bind_run _ _ _ _ _ Hrun5).
  destruct (HonP 0%Z (Some ("Sending " +:+ file_name file +:+ " in chunks...")) w5)
    as (w6 & Hrun6 & Htr6).
  rewrite (bind_run _ _ _ _ _ Hrun6).
  destruct (Hloop w6) as (w7 & Hrun7 & Htr7).
  rewrite (bind_run _ _ _ _ _ Hrun7).
  destruct (emit_run (ServiceSend service_ (DJson (file_end (Some (file_name file))))) w7)
    as (w8 & Hrun8 & _ & _ & _ & Htr8).
  rewrite (bind_run _ _ _ _ _ Hrun8).
  exists w8. split; [done|].
  rewrite Htr8, sent_app, Htr7, Htr6, Htr5, Htr4, sent_app, Htr3, Htr2, Htr1.
  simpl. by rewrite <- !app_assoc.
Qed.

Lemma perform_frames service_ file onProgress onComplete onError payload frames w :
  (forall progress stepMessage, quiet (onProgress progress stepMessage)) ->
  quiet onComplete ->
  (if shouldCompress file then deflate (file_arrayBuffer file) = Ok payload
   else payload = file_arrayBuffer file) ->
  (forall w6, exists w7,
     send_chunks (length payload) service_ (file_name file) payload (byteLength payload)
       onProgress 0%Z w6 = Some (tt, w7) /\
     sent (trace w7) = sent (trace w6) ++ frames) ->
  exists w',
    performP2PSendAndUpdateState service_ file onProgress onComplete onError w = Some (tt, w') /\
    sent (trace w') = sent (trace w) ++
      [DJson (file_meta (Some {| meta_name := file_name file; meta_size := byteLength payload;
                                 meta_type := originalFileType file;
                                 meta_isCompressed := shouldCompress file |}))]
      ++ frames ++ [DJson (file_end (Some (file_name file)))].
Proof.
  intros HonP HonC Hpayload Hloop.
  destruct (perform_reaches_complete service_ file onProgress onComplete onError payload
              frames w HonP Hpayload Hloop) as (w8 & Hrun & Hsent).
  destruct (HonC w8) as (w9 & Hrun9 & Htr9).
  exists w9. split; [congruence|]. by rewrite Htr9.
Qed.

Lemma chunk_count_more (size : Z) (k : nat) :
  (Z.of_nat k * CHUNK_SIZE < size)%Z -> (k < chunk_count size)%nat.
Proof.
  unfold chunk_count, CHUNK_SIZE. intros Hk.
  assert (Z.of_nat k < (size + 64 * 1024 - 1) / (64 * 1024))%Z; [|lia].
  Z.to_euclidean_division_equations; lia.
Qed.

Lemma chunk_count_last (size : Z) (k : nat) :
  (Z.of_nat k * CHUNK_SIZE < size <= Z.of_nat (S k) * CHUNK_SIZE)%Z ->
  chunk_count size = S k.
Proof.
  unfold chunk_count, CHUNK_SIZE. intros Hk.
  assert ((size + 64 * 1024 - 1) / (64 * 1024) = Z.of_nat (S k))%Z as ->; [|lia].
  Z.to_euclidean_division_equations; lia.
Qed.

Lemma chunk_count_exact (k : nat) : chunk_count (Z.of_nat k * CHUNK_SIZE) = k.
Proof.
  unfold chunk_count, CHUNK_SIZE.
  assert ((Z.of_nat k * (64 * 1024) + 64 * 1024 - 1) / (64 * 1024) = Z.of_nat k)%Z as ->; [|lia].
  Z.to_euclidean_division_equations; lia.
Qed.

Lemma chunk_count_covers (size : Z) :
  (0 <= size)%Z -> (size <= Z.of_nat (chunk_count size) * CHUNK_SIZE)%Z.
Proof.
  unfold chunk_count, CHUNK_SIZE. intros Hsize.
  assert (0 <= (size + 64 * 1024 - 1) / (64 * 1024))%Z
    by (Z.to_euclidean_division_equations; lia).
  rewrite Z2Nat.id by done. Z.to_euclidean_division_equations; lia.
Qed.

(** The slices of [c] bytes at [n] consecutive multiples of [c], put
    together. *)
Lemma concat_slices (data : bytes) (c n : nat) : forall k : nat,
  concat ((fun i => take c (drop (i * c) data)) <$> seq k n) = take (n * c) (drop (k * c) data).
Proof.
  induction n as [|n IH]; intros k; [done|].
  cbn [seq fmap list_fmap concat]. rewrite IH.
  replace (S k * c)%nat with (k * c + c)%nat by lia.
  rewrite <- drop_drop, take_take_drop.
  by replace (c + n * c)%nat with (S n * c)%nat by lia.
Qed.

Lemma chunks_of_slices (data : bytes) :
  chunks_of data =
    (fun i => take (Z.to_nat CHUNK_SIZE) (drop (i * Z.to_nat CHUNK_SIZE) data)) <$>
      seq 0 (chunk_count (byteLength data)).
Proof.
  unfold chunks_of. apply list_fmap_ext. intros _ i _. unfold chunk_at.
  by rewrite Z2Nat.inj_mul, Nat2Z.id by (unfold CHUNK_SIZE; lia).
Qed.

(** The loop, started at a multiple of [CHUNK_SIZE], sends the slices at
    the multiples of [CHUNK_SIZE] that are left. *)
Lemma send_chunks_layout service_ name data onProgress :
  (forall progress stepMessage, quiet (onProgress progress stepMessage)) ->
  forall fuel (k : nat) w,
  (Z.of_nat k * CHUNK_SIZE <= byteLength data)%Z ->
  (byteLength data - Z.of_nat k * CHUNK_SIZE <= Z.of_nat fuel)%Z ->
  exists w',
    send_chunks fuel service_ name data (byteLength data) onProgress
      (Z.of_nat k * CHUNK_SIZE) w = Some (tt, w') /\
    sent (trace w') = sent (trace w) ++
      (DArrayBuffer <$> ((fun i => chunk_at data (Z.of_nat i * CHUNK_SIZE)) <$>
                           seq k (chunk_count (byteLength data) - k))).
Proof.
  intros HonP.
  assert (Hmul : forall k : nat, (0 <= Z.of_nat k * CHUNK_SIZE)%Z) by (unfold CHUNK_SIZE; lia).
  induction fuel as [|fuel IH]; intros k w Hk Hfuel; pose proof (Hmul k).
  - rewrite send_chunks_done by lia. exists w. split; [done|].
    replace (byteLength data) with (Z.of_nat k * CHUNK_SIZE)%Z by lia.
    rewrite chunk_count_exact, Nat.sub_diag. simpl. by rewrite app_nil_r.
  - destruct (Z.le_gt_cases (byteLength data) (Z.of_nat k * CHUNK_SIZE)) as [Hdone|Hmore].
    + rewrite send_chunks_done by lia. exists w. split; [done|].
      replace (byteLength data) with (Z.of_nat k * CHUNK_SIZE)%Z by lia.
      rewrite chunk_count_exact, Nat.sub_diag. simpl. by rewrite app_nil_r.
    + set (offset' := (Z.of_nat k * CHUNK_SIZE
                       + Z.min CHUNK_SIZE (byteLength data - Z.of_nat k * CHUNK_SIZE))%Z).
      rewrite (send_chunks_next _ _ _ _ _ (byteLength data) _ offset') by (done || lia).
      destruct (emit_run (ServiceSend service_
                            (DArrayBuffer (chunk_at data (Z.of_nat k * CHUNK_SIZE)))) w)
        as (w1 & Hrun1 & _ & _ & _ & Htr1).
      rewrite (bind_run _ _ _ _ _ Hrun1).
      destruct (HonP (percent offset' (byteLength data)) None w1) as (w2 & Hrun2 & Htr2).
      rewrite (bind_run _ _ _ _ _ Hrun2).
      destruct (set_quiet (update_send_progress name (percent offset' (byteLength data))) w2)
        as (w3 & Hrun3 & Htr3).
      rewrite (bind_run _ _ _ _ _ Hrun3).
      assert (HC : CHUNK_SIZE = 65536%Z) by done.
      destruct (Z.le_gt_cases (Z.of_nat (S k) * CHUNK_SIZE) (byteLength data)) as [Hfull|Hlast].
      * assert (offset' = Z.of_nat (S k) * CHUNK_SIZE)%Z as -> by (subst offset'; lia).
        destruct (IH (S k) w3) as (w' & Hrun & Hsent); [lia | lia |].
        exists w'. split; [done|].
        pose proof (chunk_count_more (byteLength data) k Hmore).
        replace (chunk_count (byteLength data) - k)%nat
          with (S (chunk_count (byteLength data) - S k)) by lia.
        rewrite Hsent, Htr3, Htr2, Htr1, sent_app. simpl. by rewrite <- app_assoc.
      * assert (offset' = byteLength data) as -> by (subst offset'; lia).
        rewrite send_chunks_done by lia. exists w3. split; [done|].
        rewrite (chunk_count_last (byteLength data) k) by lia.
        replace (S k - k)%nat with 1%nat by lia.
        rewrite Htr3, Htr2, Htr1, sent_app. done.
Qed.

Lemma layout_loop service_ name payload onProgress :
  (forall progress stepMessage, quiet (onProgress progress stepMessage)) ->
  forall w6, exists w7,
    send_chunks (length payload) service_ name payload (byteLength payload)
      onProgress 0%Z w6 = Some (tt, w7) /\
    sent (trace w7) = sent (trace w6) ++ (DArrayBuffer <$> chunks_of payload).
Proof.
  intros HonP w6.
  destruct (send_chunks_layout service_ name payload onProgress HonP
              (length payload) 0 w6) as (w7 & Hrun & Hsent).
  - pose proof (byteLength_nonneg payload). lia.
  - unfold byteLength. lia.
  - exists w7. split; [exact Hrun|]. by rewrite Hsent, Nat.sub_0_r.
Qed.

(** X14. The chunk layout of a transfer, for callbacks that send nothing:
    between the [file-meta] and the [file-end] frame the sender emits the
    slices of the payload at the multiples of 65536, one frame per slice;
    there are as many as the payload's size divided by 65536, rounded up,
    none for an empty payload; every slice but the last has exactly 65536
    bytes, and together they are the payload. *)
Theorem send_chunk_layout (service_ : nat) (file : File)
    (onProgress : Z -> option string -> M unit) (onComplete : M unit)
    (onError : string -> M unit) (payload : bytes) (w : World) :
  (forall progress stepMessage, quiet (onProgress progress stepMessage)) ->
  quiet onComplete ->
  (if shouldCompress file then deflate (file_arrayBuffer file) = Ok payload
   else payload = file_arrayBuffer file) ->
  (exists w',
     performP2PSendAndUpdateState service_ file onProgress onComplete onError w
       = Some (tt, w') /\
     sent (trace w') = sent (trace w) ++
       transfer_frames {| meta_name := file_name file; meta_size := byteLength payload;
                          meta_type := originalFileType file;
                          meta_isCompressed := shouldCompress file |} (chunks_of payload)) /\
  length (chunks_of payload) = Z.to_nat ((byteLength payload + 65535) / 65536) /\
  (forall i chunk, chunks_of payload !! i = Some chunk ->
                   (S i < length (chunks_of payload))%nat -> byteLength chunk = 65536%Z) /\
  concat (chunks_of payload) = payload /\
  (payload = [] -> chunks_of payload = []).
Proof.
  intros HonP HonC Hpayload. split_and!.
  - apply perform_frames; try done. by apply layout_loop.
  - unfold chunks_of, chunk_count, CHUNK_SIZE. rewrite length_fmap, length_seq.
    f_equal. f_equal. lia.
  - unfold chunks_of. rewrite length_fmap, length_seq. intros i chunk Hi Hlt.
    rewrite list_lookup_fmap, lookup_seq_lt in Hi by lia.
    cbn [fmap option_fmap option_map] in Hi.
    assert (chunk = chunk_at payload (Z.of_nat (0 + i) * CHUNK_SIZE)) as -> by congruence.
    clear Hi. rewrite Nat.add_0_l.
    assert (Z.of_nat (S i) * CHUNK_SIZE < byteLength payload)%Z.
    { destruct (Z.le_gt_cases (byteLength payload) (Z.of_nat (S i) * CHUNK_SIZE)) as [Hle|]; [|lia].
      destruct (Z.le_gt_cases (byteLength payload) (Z.of_nat i * CHUNK_SIZE)) as [Hle'|Hgt].
      - assert (chunk_count (byteLength payload) <= i)%nat; [|lia].
        pose proof (byteLength_nonneg payload).
        unfold chunk_count, CHUNK_SIZE in *.
        assert ((byteLength payload + 64 * 1024 - 1) / (64 * 1024) <= Z.of_nat i)%Z; [|lia].
        Z.to_euclidean_division_equations; lia.
      - rewrite (chunk_count_last _ i) in Hlt by lia. lia. }
    assert (0 <= Z.of_nat i * CHUNK_SIZE)%Z by (unfold CHUNK_SIZE; lia).
    unfold chunk_at. rewrite byteLength_chunk by (unfold CHUNK_SIZE in *; lia).
    unfold CHUNK_SIZE in *. lia.
  - rewrite chunks_of_slices, concat_slices. rewrite Nat.mul_0_l, drop_0.
    apply take_ge. pose proof (chunk_count_covers (byteLength payload) (byteLength_nonneg _)).
    unfold byteLength, CHUNK_SIZE in *. lia.
  - intros ->. reflexivity.
Qed.

(** X15. When the payload is to be deflated and [pako.deflate] throws,
    no frame is sent, neither descriptor nor chunk: the sender calls
    [onError] with the compression error, does not call [onComplete], and
    what happens then is what [onError] does. *)
Theorem compression_failure_sends_nothing (service_ : nat) (file : File)
    (onProgress : Z -> option string -> M unit) (onComplete : M unit)
    (onError : string -> M unit) (e : string) (w : World) :
  (forall progress stepMessage, quiet (onProgress progress stepMessage)) ->
  shouldCompress file = true ->
  deflate (file_arrayBuffer file) = Throw e ->
  exists w1,
    sent (trace w1) = sent (trace w) /\
    performP2PSendAndUpdateState service_ file onProgress onComplete onError w =
      onError ("Error sending P2P file: File processing/compression error: " +:+ e) w1.
Proof.
  intros HonP Hshould Hdeflate. unfold performP2PSendAndUpdateState.
  destruct (set_quiet (with_p2pFileTransferProgress
              (Some {| tp_type := send; tp_filename := file_name file; tp_progress := 0 |})) w)
    as (w1 & Hrun1 & Htr1).
  rewrite (bind_run _ _ _ _ _ Hrun1).
  destruct (HonP 0%Z (Some ("Preparing to send " +:+ file_name file +:+ " via P2P...")) w1)
    as (w2 & Hrun2 & Htr2).
  rewrite (bind_run _ _ _ _ _ Hrun2).
  rewrite Hshould, Hdeflate.
  destruct (HonP (-1)%Z (Some ("Compressing " +:+ file_name file +:+ "...")) w2)
    as (w3 & Hrun3 & Htr3).
  exists w3. split; [congruence|].
  unfold mbind at 1, M_bind at 1. unfold mbind at 1, M_bind at 1. by rewrite Hrun3.
Qed.

End SenderEdges.

(** ** The notice shown to the user *)

Section Notice.

Lemma clear_timer_fires w id delay text_ type_ :
  timers w !! id = Some (delay, ClearAppMessage text_) ->
  overallAppMessage (state w) = Some {| app_text := text_; app_type := type_ |} ->
  exists w2,
    timer_fires id w = Some (Ok tt, w2) /\
    overallAppMessage (state w2) = None /\
    timers w2 !! id = None /\
    trace w2 = trace w.
Proof.
  destruct w as [c r tm lt ls tr]; destruct c, r; intros Ht Hm; unfold_state. subst.
  run. rewrite Ht. run. rewrite String.eqb_refl.
  eexists. split; [reflexivity|]. split_and!; [done | apply lookup_delete_eq | done].
Qed.

Lemma show_expiring w text_ type_ duration :
  expires type_ duration = true ->
  exists w1,
    setAppMessageFx text_ type_ duration w = Some (tt, w1) /\
    overallAppMessage (state w1) = Some {| app_text := text_; app_type := type_ |} /\
    trace w1 = trace w /\
    appMessageTimeoutRef (refs w1) = Some (Pos.succ (last_timer w)) /\
    timers w1 = <[Pos.succ (last_timer w) := (duration, ClearAppMessage text_)]>
                  (cancel (appMessageTimeoutRef (refs w)) (timers w)).
Proof.
  destruct w as [c r tm lt ls tr]; destruct c, r; intros Hexp; unfold_state.
  assert (Hd : (0 <? duration)%Z = true) by (by destruct type_).
  destruct type_; try discriminate Hexp; run; rewrite Hd;
    destruct appMessageTimeoutRef0; run; eexists; by split_and!.
Qed.

Lemma show_persistent w text_ type_ duration :
  expires type_ duration = false ->
  exists w1,
    setAppMessageFx text_ type_ duration w = Some (tt, w1) /\
    overallAppMessage (state w1) = Some {| app_text := text_; app_type := type_ |} /\
    trace w1 = trace w /\
    appMessageTimeoutRef (refs w1) = appMessageTimeoutRef (refs w) /\
    timers w1 = cancel (appMessageTimeoutRef (refs w)) (timers w).
Proof.
  destruct w as [c r tm lt ls tr]; destruct c, r; intros Hexp; unfold_state.
  assert (Hd : type_ = error \/ (0 <? duration)%Z = false) by (destruct type_; auto).
  destruct Hd as [->|Hd]; [|destruct type_]; run; rewrite ?Hd;
    destruct appMessageTimeoutRef0; run; eexists; by split_and!.
Qed.

(** X16. [setAppMessageFx] shows the message and cancels the timer of the
    message shown before.  For a message that is no error and has a
    positive duration it arms one timer of that duration, and when that
    timer fires the message is removed; for an error, or a duration of
    zero, it arms none, so the message stays until another one replaces
    it. *)
Theorem app_message_expiry (text_ : string) (type_ : AppMessageType) (duration : Z)
    (w : World) :
  exists w1,
    setAppMessageFx text_ type_ duration w = Some (tt, w1) /\
    overallAppMessage (state w1) = Some {| app_text := text_; app_type := type_ |} /\
    trace w1 = trace w /\
    (forall old, appMessageTimeoutRef (refs w) = Some old ->
                 (old <= last_timer w)%positive -> timers w1 !! old = None) /\
    if expires type_ duration
    then exists id w2,
           appMessageTimeoutRef (refs w1) = Some id /\
           timers w1 !! id = Some (duration, ClearAppMessage text_) /\
           timer_fires id w1 = Some (Ok tt, w2) /\
           overallAppMessage (state w2) = None /\
           timers w2 !! id = None
    else timers w1 = cancel (appMessageTimeoutRef (refs w)) (timers w) /\
         appMessageTimeoutRef (refs w1) = appMessageTimeoutRef (refs w).
Proof.
  destruct (expires type_ duration) eqn:Hexp.
  - destruct (show_expiring w text_ type_ duration Hexp)
      as (w1 & Hrun & Hshown & Htrace & Href & Htimers).
    exists w1. split_and!; try done.
    + intros old Hold Hle. rewrite Htimers, Hold.
      rewrite lookup_insert_ne by lia. apply lookup_delete_eq.
    + destruct (clear_timer_fires w1 (Pos.succ (last_timer w)) duration text_ type_)
        as (w2 & Hfire & Hgone & Hpending & _); [|done|].
      { rewrite Htimers. apply lookup_insert_eq. }
      exists (Pos.succ (last_timer w)), w2. split_and!; try done.
      rewrite Htimers. apply lookup_insert_eq.
  - destruct (show_persistent w text_ type_ duration Hexp)
      as (w1 & Hrun & Hshown & Htrace & Href & Htimers).
    exists w1. split_and!; try done.
    intros old Hold Hle. rewrite Htimers, Hold. apply lookup_delete_eq.
Qed.

End Notice.
(** ** The component: connections, descriptors and the share flow *)

Section Component.
Context `{Pako}.

(** X17. A [file-meta] frame handled by a closure whose render holds a
    service for its context: whatever transfer the state held, it now holds
    the new descriptor, no chunk and a receive progress of 0 for the new
    name; the receive timer that was referenced is cancelled and one timer
    of 30000 ms is armed in its place; one line is logged, and nothing is
    handed to the browser or sent. *)
Theorem file_meta_replaces_descriptor (render : State) (m : P2PFileMeta) (ctx : P2PContext)
    (s : nat) (w : World) :
  currentP2PService ctx render = Some s ->
  exists w',
    commonP2POnDataHandler render (DJson (file_meta (Some m))) ctx w = Some (tt, w') /\
    p2pReceivingFileMeta (state w') = Some m /\
    p2pReceivedFileChunks (state w') = [] /\
    p2pFileTransferProgress (state w') =
      Some {| tp_type := receive; tp_filename := meta_name m; tp_progress := 0 |} /\
    length (manualP2PReceivedMessages (state w')) =
      S (length (manualP2PReceivedMessages (state w))) /\
    p2pReceiveTimeoutIdRef (refs w') = Some (Pos.succ (last_timer w)) /\
    timers w' =
      <[Pos.succ (last_timer w) :=
          (30000%Z, ReceiveTimeout (timed_out (meta_name m)) ctx)]>
        (cancel (p2pReceiveTimeoutIdRef (refs w)) (timers w)) /\
    trace w' = trace w.
Proof.
  destruct w as [c r tm lt ls tr]; destruct c, r; intros Hs.
  unfold commonP2POnDataHandler. rewrite Hs. run.
  destruct p2pReceiveTimeoutIdRef0;
    (eexists; split; [reflexivity|]; split_and!; try done;
     simpl; rewrite length_app; simpl; lia).
Qed.


End Component.

Section ShareFlow.

(** X19. [executeShareAttempt] throws on every input, at its first call of
    the undeclared [setShareFlowMessage]: no service is constructed, no
    timer is armed, and the instance in the state is the one that was
    there. *)
Theorem share_attempt_always_throws (item_ : option ShareItem) (targetRoomId_ : string)
    (w : World) :
  exists w1,
    executeShareAttempt item_ targetRoomId_ w =
      Some (Throw "ReferenceError: setShareFlowMessage is not defined", w1) /\
    created (trace w1) = created (trace w) /\
    last_service w1 = last_service w /\
    last_timer w1 = last_timer w /\
    shareP2PServiceInstance (state w1) = shareP2PServiceInstance (state w).
Proof.
  destruct item_ as [i|].
  - destruct (blank targetRoomId_) eqn:Hblank.
    + destruct w as [c r tm lt ls tr]; destruct c, r. run_share. rewrite Hblank.
      by eexists.
    + destruct (attempt_throws w i targetRoomId_ Hblank)
        as (w1 & Hrun & _ & Hinstance & Hcreated & Hservice & _ & Htimer).
      by exists w1.
  - destruct w as [c r tm lt ls tr]; destruct c, r. run_share. by eexists.
Qed.

(** X20. The cleanup of the effect on [shareP2PServiceInstance] destroys
    the instance the effect saw, if any, and cancels the timers the three
    refs name, without resetting the refs; the state is untouched. *)
Theorem effect_cleanup_cancels_timers (previous : option nat) (w : World) :
  exists w',
    share_effect_cleanup previous w = Some (tt, w') /\
    trace w' = trace w ++ match previous with
                          | Some instance => [ServiceDestroy instance]
                          | None => []
                          end /\
    timers w' = cancel (appMessageTimeoutRef (refs w))
                  (cancel (p2pReceiveTimeoutIdRef (refs w))
                     (cancel (shareP2PTimeoutIdRef (refs w)) (timers w))) /\
    state w' = state w /\ refs w' = refs w.
Proof.
  destruct w as [c r tm lt ls tr]; destruct c, r. run_share.
  destruct previous, shareP2PTimeoutIdRef0, p2pReceiveTimeoutIdRef0, appMessageTimeoutRef0;
    run_share; eexists; (split; [reflexivity|]); split_and!; try done; by rewrite ?app_nil_r.
Qed.

End ShareFlow.

(** ** The further statements at concrete inputs *)

Section FurtherInstances.

Lemma send_chunk_layout_witness :
  exists w',
    performP2PSendAndUpdateState (H := framing_codec) 1 plain_file
      (manual_onProgress plain_file) (manual_onComplete plain_file) manual_onError
      initial_world = Some (tt, w') /\
    sent (trace w') = sent (trace initial_world) ++
      transfer_frames {| meta_name := "notes.txt"; meta_size := 3; meta_type := "text/plain";
                         meta_isCompressed := true |}
        (chunks_of [Byte.x00; Byte.x68; Byte.x69]).
Proof.
  apply (send_chunk_layout (H := framing_codec) 1 plain_file
           (manual_onProgress plain_file) (manual_onComplete plain_file) manual_onError
           [Byte.x00; Byte.x68; Byte.x69] initial_world).
  - apply manual_onProgress_quiet.
  - apply manual_onComplete_quiet.
  - reflexivity.
Defined.

Lemma compression_failure_sends_nothing_witness :
  exists w1,
    sent (trace w1) = sent (trace initial_world) /\
    performP2PSendAndUpdateState (H := failing_codec) 1 plain_file
      (manual_onProgress plain_file) (manual_onComplete plain_file) manual_onError
      initial_world =
    manual_onError
      ("Error sending P2P file: File processing/compression error: " +:+ "invalid input") w1.
Proof.
  apply (compression_failure_sends_nothing (H := failing_codec) 1 plain_file
           (manual_onProgress plain_file) (manual_onComplete plain_file) manual_onError
           "invalid input" initial_world).
  - apply manual_onProgress_quiet.
  - reflexivity.
  - reflexivity.
Defined.

Lemma file_meta_replaces_descriptor_witness :
  exists w',
    commonP2POnDataHandler (H := framing_codec)
      (with_manualP2PService (Some 1) initial_state)
      (DJson (file_meta (Some plain_meta))) manual initial_world = Some (tt, w') /\
    p2pReceivingFileMeta (state w') = Some plain_meta /\
    p2pReceiveTimeoutIdRef (refs w') = Some 2%positive.
Proof.
  destruct (file_meta_replaces_descriptor (H := framing_codec)
              (with_manualP2PService (Some 1) initial_state) plain_meta manual 1
              initial_world eq_refl) as (w' & Hrun & Hmeta & _ & _ & _ & Href & _).
  by exists w'.
Defined.

End FurtherInstances.
